(** * IRMA mint front-end: order construction, connection selection,
      rate limiting and balance reading

    A shallow embedding of [src/lib/mint.ts] and of [fetchTokenBalances] in
    [src/components/TokenBalances.tsx], with the properties stated about
    them in the specification.

    Conventions of the embedding.
    - A JavaScript [number] is an exact rational extended with the two
      infinities and NaN ([JS.number]); binary64 rounding and the sign of
      zero are not represented.  Every number the order calculator starts
      from comes out of [BN.toNumber], hence is an integer below 2^53.
    - A [BN] (bn.js big integer, an external library) is a [Z]; its
      conversions from and to [number] raise outside 53 bits, as the
      library does.
    - Asynchronous code runs in the monad [M]: explicit passing of the
      [World] (wall clock, the rate limiter's field, the component state
      and the trace of outbound calls), with JavaScript exceptions as the
      [Throw] outcome.  The state reached before a throw is kept, as in
      JavaScript.  What the RPC nodes, the DEX client and the wallet answer
      is given by an environment [Env] of oracles, which may depend on the
      whole [World]. *)

From Stdlib Require Import ZArith QArith Qround Qabs String List Bool Lia.
From Stdlib Require Floats.PrimFloat.
Import ListNotations.

Local Open Scope Z_scope.

(** ** Outcomes of a JavaScript computation *)

(** A thrown value: an [Error] object with its message, or anything else. *)
Inductive Exn : Type :=
| ErrorObj (message : string)
| OtherValue (repr : string).

Inductive result (A : Type) : Type :=
| Ok (a : A)
| Throw (e : Exn).
Arguments Ok {A} a.
Arguments Throw {A} e.

Definition is_ok {A} (r : result A) : bool :=
  match r with Ok _ => true | Throw _ => false end.

Module Res.
Definition ret {A} (a : A) : result A := Ok a.
Definition bind {A B} (r : result A) (k : A -> result B) : result B :=
  match r with
  | Ok a => k a
  | Throw e => Throw e
  end.
End Res.

Declare Scope res_scope.
Delimit Scope res_scope with res.
Notation "'let?' x ':=' c 'in' k" := (Res.bind c (fun x => k))
  (at level 10, x name, c at level 100, k at level 200) : res_scope.

(** ** JavaScript numbers *)

Module JS.

Inductive number : Type :=
| Fin (q : Q)
| PosInf
| NegInf
| NaN.

Definition of_Z (z : Z) : number := Fin (inject_Z z).

Definition neg (x : number) : number :=
  match x with
  | Fin q => Fin (- q)
  | PosInf => NegInf
  | NegInf => PosInf
  | NaN => NaN
  end.

(** An infinity with the sign of [q]; NaN when [q] is zero. *)
Definition inf_signed (q : Q) : number :=
  match (q ?= 0)%Q with
  | Eq => NaN
  | Gt => PosInf
  | Lt => NegInf
  end.

(** [x * y] *)
Definition mul (x y : number) : number :=
  match x, y with
  | NaN, _ | _, NaN => NaN
  | Fin a, Fin b => Fin (a * b)
  | Fin a, PosInf | PosInf, Fin a => inf_signed a
  | Fin a, NegInf | NegInf, Fin a => neg (inf_signed a)
  | PosInf, PosInf | NegInf, NegInf => PosInf
  | PosInf, NegInf | NegInf, PosInf => NegInf
  end.

(** [x / y]; a finite zero divisor is the positive zero. *)
Definition div (x y : number) : number :=
  match x, y with
  | NaN, _ | _, NaN => NaN
  | Fin a, Fin b => if Qeq_bool b 0 then inf_signed a else Fin (a / b)
  | Fin _, PosInf | Fin _, NegInf => Fin 0
  | PosInf, Fin b => if Qle_bool 0 b then PosInf else NegInf
  | NegInf, Fin b => if Qle_bool 0 b then NegInf else PosInf
  | _, _ => NaN
  end.

(** [Math.floor(x)] *)
Definition floor (x : number) : number :=
  match x with
  | Fin q => of_Z (Qfloor q)
  | other => other
  end.

(** [Math.max(x, y)] *)
Definition max (x y : number) : number :=
  match x, y with
  | NaN, _ | _, NaN => NaN
  | PosInf, _ | _, PosInf => PosInf
  | NegInf, other | other, NegInf => other
  | Fin a, Fin b => if Qle_bool a b then Fin b else Fin a
  end.

(** [x === 0] *)
Definition is_zero (x : number) : bool :=
  match x with
  | Fin q => Qeq_bool q 0
  | _ => false
  end.

(** [x || d] on numbers: [d] when [x] is falsy (zero or NaN). *)
Definition or_default (x d : number) : number :=
  match x with
  | Fin q => if Qeq_bool q 0 then d else x
  | NaN => d
  | _ => x
  end.

End JS.

(** ** bn.js integers *)

Module BN.

Definition t := Z.

Definition two53 : Z := 2 ^ 53.

(** [bn.toNumber()]: raises when the value needs more than 53 bits. *)
Definition toNumber (b : t) : result JS.number :=
  if Z.abs b <? two53 then Ok (JS.of_Z b)
  else Throw (ErrorObj "Number can only safely store up to 53 bits").

(** [new BN(x)] for a number [x]: the sign is split off and the magnitude
    must be below 2^53 (the library's assertion); the fractional part of
    the magnitude is dropped by the bitwise masks.  Infinities and NaN
    fail the assertion. *)
Definition ofNumber (x : JS.number) : result t :=
  match x with
  | JS.Fin q =>
      if Qle_bool (inject_Z two53) (Qabs q)
      then Throw (ErrorObj "Assertion failed")
      else Ok (Z.quot (Qnum q) (Z.pos (Qden q)))
  | _ => Throw (ErrorObj "Assertion failed")
  end.

End BN.

(** ** The order parameter calculator
    ([createOpenBookV2OrderInstruction], lines 127-159 of [mint.ts]) *)

(** The two fields of the fetched market account that the calculator reads. *)
Record Market : Type := mkMarket {
  baseLotSize : BN.t;
  quoteLotSize : BN.t;
  baseMint : string
}.

(** The order request handed over by [mintIrmaToken]: price and size in
    micro-units. *)
Record OrderParams : Type := mkOrderParams {
  price : BN.t;
  size : BN.t;
  clientId : BN.t
}.

Record Lots : Type := mkLots {
  priceLots : BN.t;
  maxBaseLots : BN.t;
  maxQuoteLotsIncludingFees : BN.t
}.

Definition million : JS.number := JS.of_Z 1000000.
Definition safety_factor : JS.number := JS.Fin (11 # 10).
Definition one : JS.number := JS.of_Z 1.

Local Open Scope res_scope.

Definition computeLots (market : Market) (orderParams : OrderParams) : result Lots :=
  let? priceInMicroUnits := BN.toNumber (price orderParams) in
  let? sizeInMicroUnits := BN.toNumber (size orderParams) in
  (* priceLots *)
  let? quoteLot := BN.toNumber (quoteLotSize market) in
  let? baseLot := BN.toNumber (baseLotSize market) in
  let priceLotsCalculation :=
    JS.div (JS.mul priceInMicroUnits quoteLot) (JS.mul baseLot million) in
  let? priceLots := BN.ofNumber (JS.max one (JS.floor priceLotsCalculation)) in
  (* maxBaseLots *)
  let? baseLot' := BN.toNumber (baseLotSize market) in
  let? maxBaseLots := BN.ofNumber (JS.floor (JS.div sizeInMicroUnits baseLot')) in
  (* maxQuoteLotsIncludingFees *)
  let totalQuoteNeeded :=
    JS.div (JS.mul (JS.mul priceInMicroUnits sizeInMicroUnits) safety_factor) million in
  let? quoteLot' := BN.toNumber (quoteLotSize market) in
  let? maxQuoteLotsIncludingFees := BN.ofNumber (JS.floor (JS.div totalQuoteNeeded quoteLot')) in
  Ok (mkLots priceLots maxBaseLots maxQuoteLotsIncludingFees).

Local Close Scope res_scope.

(** ** The same arithmetic in binary64

    The expressions of lines 144-159 on primitive floats, to evaluate the
    calculator on concrete inputs exactly as a JavaScript engine does. *)

Module Binary64.

Import PrimFloat.

Definition priceLotsCalculation (priceInMicroUnits quoteLot baseLot : float) : float :=
  ((priceInMicroUnits * quoteLot) / (baseLot * 1000000))%float.

Definition maxBaseLots_raw (sizeInMicroUnits baseLot : float) : float :=
  (sizeInMicroUnits / baseLot)%float.

(** [0x1.199999999999ap+0] is the double written [1.1]. *)
Definition totalQuoteNeeded (priceInMicroUnits sizeInMicroUnits : float) : float :=
  ((priceInMicroUnits * sizeInMicroUnits * 0x1.199999999999ap+0) / 1000000)%float.

Definition maxQuoteLots_raw (priceInMicroUnits sizeInMicroUnits quoteLot : float) : float :=
  (totalQuoteNeeded priceInMicroUnits sizeInMicroUnits / quoteLot)%float.

(** [Math.floor(x)] is the integer [n]: [n <= x < n + 1]. *)
Definition floors_to (x n : float) : bool :=
  ((n <=? x) && (x <? n + 1))%float.

End Binary64.

(** ** The world the asynchronous code runs in *)

Definition PublicKey := string.
Definition Endpoint := string.
Definition Instruction := string.

Record Transaction : Type := mkTransaction {
  instructions : list Instruction;
  recentBlockhash : option string;
  feePayer : option PublicKey
}.

Definition new_Transaction : Transaction := mkTransaction [] None None.

(** [new Connection(endpoint, {commitment: "confirmed", ...})] *)
Record Connection : Type := mkConnection {
  rpcEndpoint : Endpoint
}.

Module Token.
(** An entry of [TOKENS]. *)
Record t : Type := mk { mint : string; symbol : string }.
End Token.

Module TokenBalance.
Record t : Type := mk {
  mint : string;
  symbol : string;
  balance : JS.number;
  decimals : JS.number;
  mintAddress : string
}.
End TokenBalance.

(** The filter argument of [getParsedTokenAccountsByOwner]. *)
Inductive TokenAccountsFilter : Type :=
| ByMint (mint : PublicKey)
| ByProgramId (programId : PublicKey).

(** [account.data.parsed.info.tokenAmount] of a parsed token account. *)
Record TokenAmount : Type := mkTokenAmount {
  uiAmount : option JS.number;
  tokenDecimals : JS.number
}.

Inductive Side : Type := bid | ask.
Inductive OrderType : Type := limit_order.
Inductive SelfTradeBehavior : Type := decrementTake.

(** The [PlaceOrderArgs] built at lines 169-179. *)
Record PlaceOrderArgs : Type := mkPlaceOrderArgs {
  side : Side;
  args_lots : Lots;
  clientOrderId : BN.t;
  orderType : OrderType;
  expiryTimestamp : BN.t;
  selfTradeBehavior : SelfTradeBehavior;
  limit : Z
}.

(** Outbound calls and callbacks, in the order they were made. *)
Inductive Event : Type :=
| GetSlot (endpoint : Endpoint)
| GetAccountInfo (endpoint : Endpoint) (address : PublicKey)
| GetParsedAccountInfo (endpoint : Endpoint) (address : PublicKey)
| GetParsedTokenAccountsByOwner (endpoint : Endpoint) (owner : PublicKey)
    (filter : TokenAccountsFilter)
| GetBalance (endpoint : Endpoint) (owner : PublicKey)
| GetLatestBlockhash (endpoint : Endpoint)
| SimulateTransaction (endpoint : Endpoint) (tx : Transaction)
| SendRawTransaction (endpoint : Endpoint) (raw : string)
| MarketFetch (address : PublicKey)
| CreateOpenOrdersIx (market : PublicKey) (name : string) (owner : PublicKey)
| PlaceOrderIx (openOrdersAccount market userTokenAccount : PublicKey)
    (args : PlaceOrderArgs)
| SignTransaction (tx : Transaction)
| BalanceUpdate (balances : list TokenBalance.t).

(** The two rate limiter objects: the module-level one of [mint.ts] and the
    one of the [TokenBalances] component. *)
Inductive Limiter : Type := MintLimiter | BalancesLimiter.

Definition Limiter_eqb (a b : Limiter) : bool :=
  match a, b with
  | MintLimiter, MintLimiter | BalancesLimiter, BalancesLimiter => true
  | _, _ => false
  end.

Record World : Type := mkWorld {
  clock : Z;                                (* what [Date.now()] returns *)
  lastRequestTime : Limiter -> Z;           (* the limiters' private field *)
  trace : list Event;
  tokenBalances : list TokenBalance.t;      (* state of [TokenBalances] *)
  isLoading : bool;
  error : option string
}.

Definition initial_World (now : Z) : World :=
  mkWorld now (fun _ => 0) [] [] false None.

Definition advance (d : Z) (w : World) : World :=
  mkWorld (clock w + d) (lastRequestTime w) (trace w)
          (tokenBalances w) (isLoading w) (error w).

Definition record (ev : Event) (w : World) : World :=
  mkWorld (clock w) (lastRequestTime w) (trace w ++ [ev])%list
          (tokenBalances w) (isLoading w) (error w).

Definition store_lastRequestTime (l : Limiter) (t : Z) (w : World) : World :=
  mkWorld (clock w)
          (fun l' => if Limiter_eqb l l' then t else lastRequestTime w l')
          (trace w) (tokenBalances w) (isLoading w) (error w).

Definition store_tokenBalances (b : list TokenBalance.t) (w : World) : World :=
  mkWorld (clock w) (lastRequestTime w) (trace w) b (isLoading w) (error w).

Definition store_isLoading (b : bool) (w : World) : World :=
  mkWorld (clock w) (lastRequestTime w) (trace w) (tokenBalances w) b (error w).

Definition store_error (e : option string) (w : World) : World :=
  mkWorld (clock w) (lastRequestTime w) (trace w) (tokenBalances w) (isLoading w) e.

(** What the outside answers.  Durations are naturals: the clock never runs
    backwards and a timer never fires early. *)
Record Env : Type := mkEnv {
  elapsed : World -> N;
  timer_lag : World -> N;
  getSlot : World -> Endpoint -> result Z;
  getAccountInfo : World -> Endpoint -> PublicKey -> result (option string);
  getParsedAccountInfo : World -> Endpoint -> PublicKey -> result (option string);
  getParsedTokenAccountsByOwner :
    World -> Endpoint -> PublicKey -> TokenAccountsFilter -> result (list TokenAmount);
  getBalance : World -> Endpoint -> PublicKey -> result JS.number;
  getLatestBlockhash : World -> Endpoint -> result string;
  simulateTransaction : World -> Endpoint -> Transaction -> result string;
  sendRawTransaction : World -> Endpoint -> string -> result string;
  new_OpenBookV2Client : World -> Endpoint -> PublicKey -> result unit;
  market_fetch : World -> PublicKey -> result (option Market);
  createOpenOrdersIx :
    World -> PublicKey -> string -> PublicKey -> result (list Instruction * PublicKey);
  placeOrderIx :
    World -> PublicKey -> PublicKey -> PublicKey -> PlaceOrderArgs -> result Instruction;
  getAssociatedTokenAddressSync : PublicKey -> PublicKey -> result PublicKey;
  serialize : Transaction -> result string
}.

(** ** The monad of asynchronous code *)

Definition M (A : Type) : Type := World -> result A * World.

Definition ret {A} (a : A) : M A := fun w => (Ok a, w).

Definition bind {A B} (m : M A) (k : A -> M B) : M B :=
  fun w =>
    match m w with
    | (Ok a, w') => k a w'
    | (Throw e, w') => (Throw e, w')
    end.

Definition throw {A} (e : Exn) : M A := fun w => (Throw e, w).

(** [try { m } catch (error) { handler error }] *)
Definition try_catch {A} (m : M A) (handler : Exn -> M A) : M A :=
  fun w =>
    match m w with
    | (Ok a, w') => (Ok a, w')
    | (Throw e, w') => handler e w'
    end.

(** [try { m } finally { cleanup }] *)
Definition try_finally {A} (m : M A) (cleanup : M unit) : M A :=
  fun w =>
    match m w with
    | (r, w') =>
        match cleanup w' with
        | (Ok _, w'') => (r, w'')
        | (Throw e, w'') => (Throw e, w'')
        end
    end.

Definition lift {A} (r : result A) : M A := fun w => (r, w).

Definition update (f : World -> World) : M unit := fun w => (Ok tt, f w).

(** A synchronous look at the world or at the outside, without effect. *)
Definition look {A} (f : World -> result A) : M A := fun w => (f w, w).

Declare Scope async_scope.
Delimit Scope async_scope with async.
Notation "x <- c ;; k" := (bind c (fun x => k))
  (at level 61, c at next level, right associativity) : async_scope.
Notation "' pat <- c ;; k" := (bind c (fun x => match x with pat => k end))
  (at level 61, pat pattern, c at next level, right associativity) : async_scope.
Notation "c ;; k" := (bind c (fun _ => k))
  (at level 61, right associativity) : async_scope.
Local Open Scope async_scope.

(** [Date.now()] *)
Definition Date_now : M Z := look (fun w => Ok (clock w)).

(** An awaited call to the outside: it is recorded, answered from the
    world at the time of the call, and takes some time. *)
Definition call {A} (env : Env) (ev : Event) (answer : World -> result A) : M A :=
  fun w => (answer w, advance (Z.of_N (elapsed env w)) (record ev w)).

(** [await new Promise((resolve) => setTimeout(resolve, ms))] *)
Definition sleep (env : Env) (ms : Z) : M unit :=
  fun w => (Ok tt, advance (Z.max 0 ms + Z.of_N (timer_lag env w)) w).

(** [console.log], [console.error]: the console is not part of the world. *)
Definition console_log (line : string) : M unit := ret tt.

Local Open Scope string_scope.

(** [`${error}`] *)
Definition Exn_toString (e : Exn) : string :=
  match e with
  | ErrorObj message => "Error: " ++ message
  | OtherValue repr => repr
  end.

(** [s.includes(sub)] *)
Fixpoint includes (sub s : string) : bool :=
  if String.prefix sub s then true
  else match s with
       | EmptyString => false
       | String _ s' => includes sub s'
       end.

(** ** Constants of [mint.ts] *)

Definition MARKET_ADDRESS : PublicKey := "2scqSQbRZCCSHosvdtbE1tpK96uwztgZfuFYCxYys2gk".
Definition QUOTE_MINT : PublicKey := "7zSzGfA7r8cxhGPyJUX2CJzViLS9FX7a2b3F94qcZLkU".
Definition OPENBOOK_V2_PROGRAM_ID : PublicKey := "opnb2LAfJYbRMAHHvqjCwQxanZn7ReEHp1k81EohpZb".
Definition RATE_LIMIT_DELAY : Z := 1000.

Definition endpoints : list Endpoint :=
  [ "https://api.devnet.solana.com";
    "https://solana-devnet.rpc.extrnode.com";
    "https://ssc-dao.genesysgo.net" ].

(** ** Rate limiter ([RateLimiter.throttle], lines 23-37) *)

Definition throttle (env : Env) (l : Limiter) : M unit :=
  now <- Date_now ;;
  last <- look (fun w => Ok (lastRequestTime w l)) ;;
  let timeSinceLastRequest := (now - last)%Z in
  (if (timeSinceLastRequest <? RATE_LIMIT_DELAY)%Z
   then
     let waitTime := RATE_LIMIT_DELAY - timeSinceLastRequest in
     sleep env waitTime
   else ret tt) ;;
  now' <- Date_now ;;
  update (store_lastRequestTime l now').

(** ** Connection selector ([getWorkingConnection], lines 42-68) *)

(** The [for (const endpoint of endpoints)] loop followed by the final
    [throw]. *)
Fixpoint probe (env : Env) (candidates : list Endpoint) : M Connection :=
  match candidates with
  | [] => throw (ErrorObj "All RPC endpoints failed")
  | endpoint :: rest =>
      try_catch
        (let testConnection := mkConnection endpoint in
         call env (GetSlot endpoint) (fun w => getSlot env w endpoint) ;;
         ret testConnection)
        (fun _ => probe env rest)
  end.

Definition getWorkingConnection (env : Env) : M Connection := probe env endpoints.

(** ** Order submitter ([createOpenBookV2OrderInstruction], lines 71-225) *)

Record OrderResult : Type := mkOrderResult {
  success : bool;
  orderId : option string;
  message : string;
  transaction : option Transaction
}.

(** The wallet's [signTransaction] callback. *)
Definition SignCallback : Type := World -> Transaction -> result Transaction.

(** Lines 84-203 and the [signedTx.serialize()] of line 204: everything the
    [try] block does before it hands the bytes to [sendRawTransaction]. *)
Definition prepareSignedOrder (env : Env) (connection : Connection)
    (marketAddress wallet : PublicKey) (signTransaction : SignCallback)
    (orderParams : OrderParams) : M string :=
  let endpoint := rpcEndpoint connection in
  (* new AnchorProvider(...), new OpenBookV2Client(...) *)
  look (fun w => new_OpenBookV2Client env w endpoint OPENBOOK_V2_PROGRAM_ID) ;;
  market <- call env (MarketFetch marketAddress)
              (fun w => market_fetch env w marketAddress) ;;
  ' (createOpenOrdersIxs, openOrdersAccount) <-
      call env (CreateOpenOrdersIx marketAddress "IRMA-USDC" wallet)
        (fun w => createOpenOrdersIx env w marketAddress "IRMA-USDC" wallet) ;;
  market <- match market with
            | None => throw (ErrorObj "Market not found")
            | Some m => ret m
            end ;;
  lots <- lift (computeLots market orderParams) ;;
  now <- Date_now ;;
  clientOrderId <- lift (BN.ofNumber (JS.of_Z now)) ;;
  let orderArgs :=
    mkPlaceOrderArgs ask lots clientOrderId limit_order 18446744073709551615%Z
      decrementTake 10%Z in
  userTokenAccount <- lift (getAssociatedTokenAddressSync env (baseMint market) wallet) ;;
  ix <- call env (PlaceOrderIx openOrdersAccount marketAddress userTokenAccount orderArgs)
          (fun w => placeOrderIx env w openOrdersAccount marketAddress
                      userTokenAccount orderArgs) ;;
  let tx := mkTransaction (createOpenOrdersIxs ++ [ix])%list None None in
  recentBlockhash <- call env (GetLatestBlockhash endpoint)
                       (fun w => getLatestBlockhash env w endpoint) ;;
  let tx := mkTransaction (instructions tx) (Some recentBlockhash) (Some wallet) in
  call env (SimulateTransaction endpoint tx)
    (fun w => simulateTransaction env w endpoint tx) ;;
  signedTx <- call env (SignTransaction tx) (fun w => signTransaction w tx) ;;
  lift (serialize env signedTx).

Definition createOpenBookV2OrderInstruction (env : Env) (connection : Connection)
    (marketAddress wallet : PublicKey) (signTransaction : SignCallback)
    (orderParams : OrderParams) : M OrderResult :=
  try_catch
    (raw <- prepareSignedOrder env connection marketAddress wallet
              signTransaction orderParams ;;
     txHash <- call env (SendRawTransaction (rpcEndpoint connection) raw)
                 (fun w => sendRawTransaction env w (rpcEndpoint connection) raw) ;;
     ret (mkOrderResult true (Some txHash)
            "OpenBook v2 order instruction created successfully"
            (Some new_Transaction)))
    (fun error =>
       ret (mkOrderResult false None
              ("Failed to create order instruction: " ++ Exn_toString error)
              None)).

(** ** [mintIrmaToken] (lines 227-342) *)

Definition rate : JS.number := JS.Fin (104 # 100).

(** The [if] chain of the [catch] block: which hint goes to the console. *)
Definition mint_error_hint (error : Exn) : option string :=
  match error with
  | ErrorObj message =>
      if includes "429" message
      then Some "Rate limit exceeded. Please try again later."
      else if includes "timeout" message
      then Some "Request timed out. Please try again."
      else if includes "market" message
      then Some "OpenBook market error. Please check market status."
      else if includes "buy order" message
      then Some "Order placement failed. Please try again."
      else None
  | OtherValue _ => None
  end.

(** The body of the [try] block. *)
Definition mintIrmaToken_body (env : Env) (wallet : PublicKey) (amount : JS.number)
    (signTransaction : SignCallback) : M bool :=
  throttle env MintLimiter ;;
  connection <- getWorkingConnection env ;;
  let marketAddress := MARKET_ADDRESS in
  try_catch
    (call env (GetAccountInfo (rpcEndpoint connection) marketAddress)
       (fun w => getAccountInfo env w (rpcEndpoint connection) marketAddress) ;;
     ret tt)
    (fun _ => throw (ErrorObj ("Invalid market address: " ++ MARKET_ADDRESS))) ;;
  let usdcAmount := JS.mul amount rate in
  let pricePerToken := JS.div usdcAmount amount in
  price <- lift (BN.ofNumber (JS.floor (JS.mul pricePerToken million))) ;;
  size <- lift (BN.ofNumber (JS.floor (JS.mul amount million))) ;;
  now <- Date_now ;;
  clientId <- lift (BN.ofNumber (JS.of_Z now)) ;;
  let orderParams := mkOrderParams price size clientId in
  orderResult <- createOpenBookV2OrderInstruction env connection marketAddress
                   wallet signTransaction orderParams ;;
  (if negb (success orderResult)
   then throw (ErrorObj ("Failed to create order instruction: " ++ message orderResult))
   else ret tt) ;;
  call env (GetLatestBlockhash (rpcEndpoint connection))
    (fun w => getLatestBlockhash env w (rpcEndpoint connection)) ;;
  ret true.

Definition mintIrmaToken (env : Env) (wallet : PublicKey) (amount : JS.number)
    (signTransaction : SignCallback) : M bool :=
  try_catch
    (mintIrmaToken_body env wallet amount signTransaction)
    (fun error =>
       match mint_error_hint error with
       | Some hint => console_log hint
       | None => ret tt
       end ;;
       ret false).

(** ** [getOrderStatus] (lines 382-407) *)

Inductive Status : Type := pending | filled | cancelled | status_error.

Record OrderStatus : Type := mkOrderStatus {
  status : Status;
  filledAmount : option JS.number;
  remainingAmount : option JS.number;
  status_price : option JS.number
}.

(** The declared return type admits [null]: [option]. *)
Definition getOrderStatus (orderId : string) : M (option OrderStatus) :=
  try_catch
    (console_log ("Getting order status for order " ++ orderId ++ " (placeholder)") ;;
     ret (Some (mkOrderStatus pending (Some (JS.of_Z 0)) (Some (JS.of_Z 0)) (Some rate))))
    (fun _ =>
       ret (Some (mkOrderStatus status_error (Some (JS.of_Z 0)) (Some (JS.of_Z 0))
                    (Some rate)))).

(** ** Balance reader ([fetchTokenBalances], [TokenBalances.tsx] lines 118-269) *)

Definition TOKENS : list Token.t :=
  [ Token.mk "BGySzmvQrR69thSD5iVhhBrQ1CLnFYKakszRFuzwb1yj" "IRMA";
    Token.mk "7zSzGfA7r8cxhGPyJUX2CJzViLS9FX7a2b3F94qcZLkU" "USDC" ].

Definition TOKEN_PROGRAM_ID : PublicKey := "TokenkegQfeZyiNwAJbNbGKPFXCWuBvf9Ss623VQ5DA".

Definition default_decimals : JS.number := JS.of_Z 6.

(** One round of the [for (const token of TOKENS)] loop: the record it
    pushes onto [balances]. *)
Definition fetchOne (env : Env) (connection : Connection) (publicKey : PublicKey)
    (token : Token.t) : M TokenBalance.t :=
  let endpoint := rpcEndpoint connection in
  try_catch
    (throttle env BalancesLimiter ;;
     let mintPubkey := Token.mint token in
     try_catch
       (call env (GetParsedAccountInfo endpoint mintPubkey)
          (fun w => getParsedAccountInfo env w endpoint mintPubkey) ;;
        ret tt)
       (fun _ => ret tt) ;;
     tokenAccounts <-
       call env (GetParsedTokenAccountsByOwner endpoint publicKey (ByMint mintPubkey))
         (fun w => getParsedTokenAccountsByOwner env w endpoint publicKey
                     (ByMint mintPubkey)) ;;
     let '(balance, decimals) :=
       match tokenAccounts with
       | account :: _ =>
           (match uiAmount account with
            | Some a => JS.or_default a (JS.of_Z 0)
            | None => JS.of_Z 0
            end,
            JS.or_default (tokenDecimals account) default_decimals)
       | [] => (JS.of_Z 0, default_decimals)
       end in
     ret (TokenBalance.mk (Token.symbol token) (Token.symbol token)
            balance decimals (Token.mint token)))
    (fun _ =>
       ret (TokenBalance.mk (Token.symbol token) (Token.symbol token)
              (JS.of_Z 0) default_decimals (Token.mint token))).

Fixpoint fetchEach (env : Env) (connection : Connection) (publicKey : PublicKey)
    (tokens : list Token.t) (balances : list TokenBalance.t)
    : M (list TokenBalance.t) :=
  match tokens with
  | [] => ret balances
  | token :: rest =>
      b <- fetchOne env connection publicKey token ;;
      fetchEach env connection publicKey rest (balances ++ [b])%list
  end.

(** The [onBalanceUpdate] prop; the one this repository passes
    ([handleBalanceUpdate] of [MintForm]) stores the list and returns. *)
Definition notify (onBalanceUpdate : bool) (balances : list TokenBalance.t) : M unit :=
  if onBalanceUpdate
  then update (record (BalanceUpdate balances))
  else ret tt.

(** Lines 125-233: the [try] block. *)
Definition fetchTokenBalances_main (env : Env) (publicKey : PublicKey)
    (onBalanceUpdate : bool) : M unit :=
  connection <- getWorkingConnection env ;;
  balances <- fetchEach env connection publicKey TOKENS [] ;;
  (if forallb (fun b => JS.is_zero (TokenBalance.balance b)) balances
   then
     try_catch
       (call env
          (GetParsedTokenAccountsByOwner (rpcEndpoint connection) publicKey
             (ByProgramId TOKEN_PROGRAM_ID))
          (fun w => getParsedTokenAccountsByOwner env w (rpcEndpoint connection)
                      publicKey (ByProgramId TOKEN_PROGRAM_ID)) ;;
        ret tt)
       (fun _ => ret tt)
   else ret tt) ;;
  update (store_tokenBalances balances) ;;
  notify onBalanceUpdate balances.

(** Lines 237-265: the [catch] block, the native-balance fallback. *)
Definition fetchTokenBalances_fallback (env : Env) (publicKey : PublicKey)
    (onBalanceUpdate : bool) : M unit :=
  try_catch
    (connection <- getWorkingConnection env ;;
     solBalance <- call env (GetBalance (rpcEndpoint connection) publicKey)
                     (fun w => getBalance env w (rpcEndpoint connection) publicKey) ;;
     let solAmount := JS.div solBalance (JS.of_Z 1000000000) in
     let fallbackBalances :=
       [ TokenBalance.mk "SOL" "SOL" solAmount (JS.of_Z 9) "Native SOL" ] in
     update (store_tokenBalances fallbackBalances) ;;
     update (store_error (Some "Token fetching failed, showing SOL balance only")) ;;
     notify onBalanceUpdate fallbackBalances)
    (fun _ =>
       update (store_error
                 (Some "Failed to fetch any balances. Please check your connection."))).

Definition fetchTokenBalances (env : Env) (publicKey : option PublicKey)
    (onBalanceUpdate : bool) : M unit :=
  match publicKey with
  | None => ret tt
  | Some publicKey =>
      update (store_isLoading true) ;;
      update (store_error None) ;;
      try_finally
        (try_catch
           (fetchTokenBalances_main env publicKey onBalanceUpdate)
           (fun _ => fetchTokenBalances_fallback env publicKey onBalanceUpdate))
        (update (store_isLoading false))
  end.

(** ** Fixtures *)

(** The regression fixture: quantity 1000, price 1.04, both lot sizes 1. *)
Definition fixture_market : Market := mkMarket 1 1 "BGySzmvQrR69thSD5iVhhBrQ1CLnFYKakszRFuzwb1yj".
Definition fixture_order : OrderParams := mkOrderParams 1040000 1000000000 0.

(** ** Observations on the trace *)

Definition is_broadcast (ev : Event) : bool :=
  match ev with
  | SendRawTransaction _ _ => true
  | _ => false
  end.

(** How many recorded events satisfy [P]. *)
Definition count (P : Event -> bool) (w : World) : nat :=
  List.length (List.filter P (trace w)).

(** The number of transactions handed to [sendRawTransaction] so far. *)
Definition broadcasts (w : World) : nat := count is_broadcast w.

(** The endpoints whose liveness was probed, in order. *)
Definition probed_in (evs : list Event) : list Endpoint :=
  List.flat_map (fun ev => match ev with GetSlot e => [e] | _ => [] end) evs.

Definition probed (w : World) : list Endpoint := probed_in (trace w).

(** The untargeted account scans (by token program) made for [owner]. *)
Definition is_scan (owner : PublicKey) (ev : Event) : bool :=
  match ev with
  | GetParsedTokenAccountsByOwner _ o (ByProgramId p) =>
      String.eqb o owner && String.eqb p TOKEN_PROGRAM_ID
  | _ => false
  end.

Definition scans (owner : PublicKey) (w : World) : nat := count (is_scan owner) w.

(** [m] leaves the observation [obs] of the world as it was, however it
    ends. *)
Definition preserves {X A} (obs : World -> X) (m : M A) : Prop :=
  forall w r w', m w = (r, w') -> obs w' = obs w.

(** [m] records no event satisfying [P]. *)
Definition quiet (P : Event -> bool) {A} (m : M A) : Prop :=
  preserves (count P) m.

(** The result built in the [catch] block of the order submitter. *)
Definition failed (e : Exn) : OrderResult :=
  mkOrderResult false None
    ("Failed to create order instruction: " ++ Exn_toString e) None.

Definition success_of (r : result OrderResult) : option bool :=
  match r with
  | Ok res => Some (success res)
  | Throw _ => None
  end.

(** The record pushed for a token without any account. *)
Definition zero_balance (token : Token.t) : TokenBalance.t :=
  TokenBalance.mk (Token.symbol token) (Token.symbol token)
    (JS.of_Z 0) (JS.of_Z 6) (Token.mint token).

(** An environment in which nothing answers: every call raises. *)
Definition down : Exn := ErrorObj "fetch failed".

Definition dead_env : Env :=
  mkEnv (fun _ => 0%N) (fun _ => 0%N)
    (fun _ _ => Throw down) (fun _ _ _ => Throw down) (fun _ _ _ => Throw down)
    (fun _ _ _ _ => Throw down) (fun _ _ _ => Throw down) (fun _ _ => Throw down)
    (fun _ _ _ => Throw down) (fun _ _ _ => Throw down) (fun _ _ _ => Throw down)
    (fun _ _ => Throw down) (fun _ _ _ _ => Throw down) (fun _ _ _ _ _ => Throw down)
    (fun _ _ => Throw down) (fun _ => Throw down).

(** The three entries of [endpoints]. *)
Definition first_endpoint : Endpoint := "https://api.devnet.solana.com".
Definition second_endpoint : Endpoint := "https://solana-devnet.rpc.extrnode.com".
Definition third_endpoint : Endpoint := "https://ssc-dao.genesysgo.net".

(** An environment in which only the second endpoint answers, every
    account lookup finds nothing, and the market is the fixture. *)
Definition live_env : Env :=
  mkEnv (fun _ => 25%N) (fun _ => 3%N)
    (fun _ e => if String.eqb e second_endpoint then Ok 1 else Throw down)
    (fun _ _ _ => Ok None) (fun _ _ _ => Ok None)
    (fun _ _ _ _ => Ok []) (fun _ _ _ => Ok (JS.of_Z 0)) (fun _ _ => Ok "blockhash"%string)
    (fun _ _ _ => Ok "simulated"%string) (fun _ _ _ => Ok "txhash"%string)
    (fun _ _ _ => Ok tt)
    (fun _ _ => Ok (Some fixture_market))
    (fun _ _ _ _ => Ok ([ "createOpenOrders"%string ], "openOrdersAccount"%string))
    (fun _ _ _ _ _ => Ok "placeOrder"%string)
    (fun _ _ => Ok "userTokenAccount"%string) (fun _ => Ok "raw"%string).

(** As [live_env], except that the untargeted account scan raises. *)
Definition scan_failing_env : Env :=
  mkEnv (fun _ => 25%N) (fun _ => 3%N)
    (fun _ e => if String.eqb e second_endpoint then Ok 1 else Throw down)
    (fun _ _ _ => Ok None) (fun _ _ _ => Ok None)
    (fun _ _ _ filter =>
       match filter with
       | ByMint _ => Ok []
       | ByProgramId _ => Throw down
       end)
    (fun _ _ _ => Ok (JS.of_Z 0)) (fun _ _ => Ok "blockhash"%string)
    (fun _ _ _ => Ok "simulated"%string) (fun _ _ _ => Ok "txhash"%string)
    (fun _ _ _ => Ok tt)
    (fun _ _ => Ok (Some fixture_market))
    (fun _ _ _ _ => Ok ([ "createOpenOrders"%string ], "openOrdersAccount"%string))
    (fun _ _ _ _ _ => Ok "placeOrder"%string)
    (fun _ _ => Ok "userTokenAccount"%string) (fun _ => Ok "raw"%string).

Definition signer : SignCallback := fun _ tx => Ok tx.

Definition refusing_signer : SignCallback :=
  fun _ _ => Throw (ErrorObj "User rejected the request.").

Definition fixture_wallet : PublicKey := "4Nd1mYvRz5kWbQ7ZbXcPq1MPJw3n3hB1kQ2yq8JmXw9T".

Local Close Scope string_scope.

(** ** The formulas as the specification words them *)

(** "floor(price_per_unit_in_smallest_quote_denomination x quote_lot_size /
    base_lot_size), clamped to a minimum of 1 lot" *)
Definition spec_price_in_lots (price_micro quote_lot base_lot : Z) : Z :=
  Z.max 1 (Qfloor (inject_Z price_micro * inject_Z quote_lot / inject_Z base_lot)).

(** "floor(quantity_in_smallest_base_denomination / base_lot_size)" *)
Definition spec_max_base_lots (quantity_micro base_lot : Z) : Z :=
  Qfloor (inject_Z quantity_micro / inject_Z base_lot).

(** "floor((price x quantity x safety_margin) / quote_lot_size)", with the
    margin 1.10 and price and quantity in smallest-denomination units. *)
Definition spec_max_quote_lots (price_micro quantity_micro quote_lot : Z) : Z :=
  Qfloor (inject_Z price_micro * inject_Z quantity_micro * (110 # 100) / inject_Z quote_lot).

(** "all integer fields must be non-negative and at least 1 where a zero
    would make the order unfillable"; the price is the field the calculator
    protects against zero. *)
Definition lots_invariant (l : Lots) : Prop :=
  0 <= priceLots l /\ 0 <= maxBaseLots l /\ 0 <= maxQuoteLotsIncludingFees l /\
  1 <= priceLots l.


(** ** Comparisons of numbers *)

Module JSCmp.

(** [x <= y]; false as soon as one side is NaN. *)
Definition le (x y : JS.number) : bool :=
  match x, y with
  | JS.NaN, _ | _, JS.NaN => false
  | JS.NegInf, _ | _, JS.PosInf => true
  | JS.Fin a, JS.Fin b => Qle_bool a b
  | _, _ => false
  end.

(** [x >= y] *)
Definition ge (x y : JS.number) : bool := le y x.

End JSCmp.

(** ** The mint form ([MintForm], [MintForm.tsx] lines 22-110) *)

Module MintForm.

(** The component state. *)
Record State : Type := mkState {
  amount : JS.number;
  stablecoin : string;
  isMinting : bool;
  formBalances : list TokenBalance.t       (* [tokenBalances] of the form *)
}.

Definition initial : State := mkState (JS.of_Z 1000) "USDC" false [].

Definition mintRate : JS.number := JS.Fin (104 # 100).

Definition totalMintPrice (st : State) : JS.number := JS.mul (amount st) mintRate.

Definition getUSDCBalance (st : State) : JS.number :=
  match List.find (fun token => String.eqb (TokenBalance.symbol token) "USDC")
          (formBalances st) with
  | Some usdcToken => TokenBalance.balance usdcToken
  | None => JS.of_Z 0
  end.

Definition hasEnoughBalance (st : State) : bool :=
  JSCmp.ge (getUSDCBalance st) (totalMintPrice st).

(** [handleBalanceUpdate], the [onBalanceUpdate] prop given to
    [TokenBalances]. *)
Definition handleBalanceUpdate (balances : list TokenBalance.t) (st : State) : State :=
  mkState (amount st) (stablecoin st) (isMinting st) balances.

(** The four toasts of [handleMint], by kind. *)
Inductive Toast : Type :=
| InsufficientBalance
| Minted
| MintFailed
| MintErrored.

Definition set_isMinting (b : bool) (st : State) : State :=
  mkState (amount st) (stablecoin st) b (formBalances st).

Definition set_amount (a : JS.number) (st : State) : State :=
  mkState a (stablecoin st) (isMinting st) (formBalances st).

(** [handleMint]: the state the form is left in and the toast shown, if
    any. *)
Definition handleMint (env : Env) (publicKey : option PublicKey)
    (signTransaction : option SignCallback) (st : State)
    : M (State * option Toast) :=
  match publicKey, signTransaction with
  | Some publicKey, Some signTransaction =>
      if JSCmp.le (amount st) (JS.of_Z 0) then ret (st, None)
      else if negb (hasEnoughBalance st) then ret (st, Some InsufficientBalance)
      else
        ' (st', toast) <-
          try_catch
            (success <- mintIrmaToken env publicKey (amount st) signTransaction ;;
             if success
             then ret (set_amount (JS.of_Z 1000) (set_isMinting true st), Some Minted)
             else ret (set_isMinting true st, Some MintFailed))
            (fun _ => ret (set_isMinting true st, Some MintErrored)) ;;
        ret (set_isMinting false st', toast)
  | _, _ => ret (st, None)
  end.

End MintForm.

(** ** The earlier variant of the order arithmetic
    ([src/unnamed/part_000], lines 124-126 and 222-239) *)

Module Legacy.

(** A [BN] under an arithmetic operator: JavaScript converts it through
    its decimal string, which gives the integer itself. *)
Definition coerce (b : BN.t) : JS.number := JS.of_Z b.

(** [new BN(Math.floor((orderParams.price * market.baseLotSize) /
    market.quoteLotSize))] *)
Definition priceLots (market : Market) (orderParams : OrderParams) : result BN.t :=
  BN.ofNumber
    (JS.floor
       (JS.div (JS.mul (coerce (price orderParams)) (coerce (baseLotSize market)))
          (coerce (quoteLotSize market)))).

(** The order parameters [mintIrmaToken] builds there: [new BN] of the
    price per token and of the amount themselves, not of micro-units. *)
Definition orderParams (amount : JS.number) (now : Z) : result OrderParams :=
  let usdcAmount := JS.mul amount rate in
  let pricePerToken := JS.div usdcAmount amount in
  Res.bind (BN.ofNumber pricePerToken) (fun price =>
  Res.bind (BN.ofNumber amount) (fun size =>
  Res.bind (BN.ofNumber (JS.of_Z now)) (fun clientId =>
  Ok (mkOrderParams price size clientId)))).

End Legacy.

(** ** Relations between the world before and after *)

(** [m] takes every world to one related to it by [R], however it ends. *)
Definition evolves (R : World -> World -> Prop) {A} (m : M A) : Prop :=
  forall w r w', m w = (r, w') -> R w w'.


(** At most [n] transactions were broadcast in between. *)
Definition sent_at_most (n : nat) (w w' : World) : Prop :=
  (broadcasts w <= broadcasts w' <= broadcasts w + n)%nat.

(** The lots of the orders whose instruction was requested, in order. *)
Definition placed_in (evs : list Event) : list Lots :=
  List.flat_map (fun ev => match ev with
                           | PlaceOrderIx _ _ _ args => [args_lots args]
                           | _ => []
                           end) evs.

(** Calls that only read: liveness, accounts and balances. *)
Definition is_read (ev : Event) : bool :=
  match ev with
  | GetSlot _ | GetAccountInfo _ _ | GetParsedAccountInfo _ _
  | GetParsedTokenAccountsByOwner _ _ _ | GetBalance _ _ | GetLatestBlockhash _ => true
  | _ => false
  end.

(** The record of the native-balance fallback. *)
Definition sol_balance (lamports : JS.number) : TokenBalance.t :=
  TokenBalance.mk "SOL" "SOL" (JS.div lamports (JS.of_Z 1000000000)) (JS.of_Z 9)
    "Native SOL".


(** An environment whose endpoints answer only from the fourth probe on,
    and where the wallet holds 2.5 SOL. *)
Definition late_env : Env :=
  mkEnv (fun _ => 25%N) (fun _ => 3%N)
    (fun w _ => if (3 <=? List.length (trace w))%nat then Ok 1 else Throw down)
    (fun _ _ _ => Ok None) (fun _ _ _ => Ok None)
    (fun _ _ _ _ => Ok []) (fun _ _ _ => Ok (JS.of_Z 2500000000))
    (fun _ _ => Ok "blockhash"%string)
    (fun _ _ _ => Ok "simulated"%string) (fun _ _ _ => Ok "txhash"%string)
    (fun _ _ _ => Ok tt)
    (fun _ _ => Ok (Some fixture_market))
    (fun _ _ _ _ => Ok ([ "createOpenOrders"%string ], "openOrdersAccount"%string))
    (fun _ _ _ _ _ => Ok "placeOrder"%string)
    (fun _ _ => Ok "userTokenAccount"%string) (fun _ => Ok "raw"%string).

(** As [live_env], with 7.5 USDC (6 decimals) and an IRMA account whose
    amount and decimals are both reported as 0. *)
Definition funded_env : Env :=
  mkEnv (fun _ => 25%N) (fun _ => 3%N)
    (fun _ e => if String.eqb e second_endpoint then Ok 1 else Throw down)
    (fun _ _ _ => Ok None) (fun _ _ _ => Ok None)
    (fun _ _ _ filter =>
       match filter with
       | ByMint m =>
           if String.eqb m QUOTE_MINT
           then Ok [mkTokenAmount (Some (JS.Fin (75 # 10))) (JS.of_Z 6)]
           else Ok [mkTokenAmount None (JS.of_Z 0)]
       | ByProgramId _ => Ok []
       end)
    (fun _ _ _ => Ok (JS.of_Z 0)) (fun _ _ => Ok "blockhash"%string)
    (fun _ _ _ => Ok "simulated"%string) (fun _ _ _ => Ok "txhash"%string)
    (fun _ _ _ => Ok tt)
    (fun _ _ => Ok (Some fixture_market))
    (fun _ _ _ _ => Ok ([ "createOpenOrders"%string ], "openOrdersAccount"%string))
    (fun _ _ _ _ _ => Ok "placeOrder"%string)
    (fun _ _ => Ok "userTokenAccount"%string) (fun _ => Ok "raw"%string).

(** The calls only the order submitter makes. *)
Definition is_order_step (ev : Event) : bool :=
  match ev with
  | MarketFetch _ | CreateOpenOrdersIx _ _ _ | PlaceOrderIx _ _ _ _
  | SimulateTransaction _ _ | SignTransaction _ | SendRawTransaction _ _ => true
  | _ => false
  end.

(** [x] is truthy: neither zero nor NaN. *)
Definition truthy (x : JS.number) : bool :=
  match x with
  | JS.Fin q => negb (Qeq_bool q 0)
  | JS.NaN => false
  | _ => true
  end.

(** [b] is a well-formed record for [token]: it carries the token's symbol
    and mint address, its decimals are truthy and its balance is not NaN. *)
Definition record_for (token : Token.t) (b : TokenBalance.t) : Prop :=
  TokenBalance.mint b = Token.symbol token /\
  TokenBalance.symbol b = Token.symbol token /\
  TokenBalance.mintAddress b = Token.mint token /\
  truthy (TokenBalance.decimals b) = true /\
  TokenBalance.balance b <> JS.NaN.

Definition all_zero (balances : list TokenBalance.t) : bool :=
  List.forallb (fun b => JS.is_zero (TokenBalance.balance b)) balances.

Definition sol_only_message : string :=
  "Token fetching failed, showing SOL balance only".

Definition no_balance_message : string :=
  "Failed to fetch any balances. Please check your connection.".

(** An event is sound when, if it requests an order instruction, the lots
    of that order satisfy the invariant. *)
Definition sound_order (ev : Event) : Prop :=
  match ev with
  | PlaceOrderIx _ _ _ args => lots_invariant (args_lots args)
  | _ => True
  end.

(** Only sound events were recorded in between. *)
Definition adds_sound (w w' : World) : Prop :=
  exists evs, trace w' = (trace w ++ evs)%list /\ List.Forall sound_order evs.

(** Every market the environment serves has positive lot sizes. *)
Definition sane_markets (env : Env) : Prop :=
  forall w address m,
    market_fetch env w address = Ok (Some m) ->
    0 < baseLotSize m /\ 0 < quoteLotSize m.


(** As [live_env], except that the blockhash can no longer be fetched once
    a transaction has been broadcast. *)
Definition dropping_env : Env :=
  mkEnv (fun _ => 25%N) (fun _ => 3%N)
    (fun _ e => if String.eqb e second_endpoint then Ok 1 else Throw down)
    (fun _ _ _ => Ok None) (fun _ _ _ => Ok None)
    (fun _ _ _ _ => Ok []) (fun _ _ _ => Ok (JS.of_Z 0))
    (fun w _ => if (1 <=? broadcasts w)%nat then Throw down else Ok "blockhash"%string)
    (fun _ _ _ => Ok "simulated"%string) (fun _ _ _ => Ok "txhash"%string)
    (fun _ _ _ => Ok tt)
    (fun _ _ => Ok (Some fixture_market))
    (fun _ _ _ _ => Ok ([ "createOpenOrders"%string ], "openOrdersAccount"%string))
    (fun _ _ _ _ _ => Ok "placeOrder"%string)
    (fun _ _ => Ok "userTokenAccount"%string) (fun _ => Ok "raw"%string).

(** The form after a balance update that reported 5000 USDC. *)
Definition funded_form : MintForm.State :=
  MintForm.handleBalanceUpdate
    [TokenBalance.mk "USDC"%string "USDC"%string (JS.of_Z 5000) (JS.of_Z 6)
       QUOTE_MINT]
    MintForm.initial.


(** ** Facts about numbers and [BN] conversions *)

Lemma toNumber_inv (b : BN.t) (x : JS.number) :
  BN.toNumber b = Ok x -> x = JS.of_Z b /\ Z.abs b < BN.two53.
Proof.
  unfold BN.toNumber. destruct (Z.ltb_spec (Z.abs b) BN.two53) as [Hlt | Hge].
  - intros H. inversion H. split; [reflexivity | exact Hlt].
  - discriminate.
Qed.


Lemma Qle_bool_inject (a b : Z) : Qle_bool (inject_Z a) (inject_Z b) = (a <=? b).
Proof.
  unfold Qle_bool, inject_Z. simpl. rewrite !Z.mul_1_r. reflexivity.
Qed.

Lemma Qeq_bool_inject (a b : Z) : Qeq_bool (inject_Z a) (inject_Z b) = (a =? b).
Proof.
  unfold Qeq_bool, inject_Z. simpl. rewrite !Z.mul_1_r.
  destruct (Z.eqb_spec a b) as [-> | Hne].
  - destruct (Z.eq_dec b b); [reflexivity | contradiction].
  - destruct (Z.eq_dec a b); [contradiction | reflexivity].
Qed.

Lemma ofNumber_of_Z (n : Z) :
  BN.ofNumber (JS.of_Z n) =
  if BN.two53 <=? Z.abs n then Throw (ErrorObj "Assertion failed") else Ok n.
Proof.
  unfold BN.ofNumber, JS.of_Z.
  replace (Qabs (inject_Z n)) with (inject_Z (Z.abs n)) by reflexivity.
  rewrite Qle_bool_inject.
  destruct (BN.two53 <=? Z.abs n); [reflexivity |].
  simpl. rewrite Z.quot_1_r. reflexivity.
Qed.

Lemma ofNumber_of_Z_inv (n v : Z) :
  BN.ofNumber (JS.of_Z n) = Ok v -> v = n /\ Z.abs n < BN.two53.
Proof.
  rewrite ofNumber_of_Z. destruct (Z.leb_spec BN.two53 (Z.abs n)) as [Hge | Hlt].
  - discriminate.
  - intros [= <-]. split; [reflexivity | exact Hlt].
Qed.


Lemma ofNumber_floor_inv (x : JS.number) (v : Z) :
  BN.ofNumber (JS.floor x) = Ok v ->
  exists q, x = JS.Fin q /\ v = Qfloor q /\ Z.abs (Qfloor q) < BN.two53.
Proof.
  destruct x as [q | | |]; simpl; try discriminate.
  intros H. apply ofNumber_of_Z_inv in H. exists q. tauto.
Qed.

Lemma div_of_Z_r (a : Q) (b : Z) :
  b <> 0 -> JS.div (JS.Fin a) (JS.Fin (inject_Z b)) = JS.Fin (a / inject_Z b).
Proof.
  intros Hb. unfold JS.div.
  change 0%Q with (inject_Z 0). rewrite Qeq_bool_inject.
  destruct (Z.eqb_spec b 0); [contradiction | reflexivity].
Qed.

Lemma div_by_zero (a : Q) (q : Q) : JS.div (JS.Fin a) (JS.Fin (inject_Z 0)) <> JS.Fin q.
Proof.
  unfold JS.div, JS.inf_signed. simpl.
  destruct (a ?= 0)%Q; discriminate.
Qed.

Lemma max_one_of_Z (n : Z) : JS.max one (JS.of_Z n) = JS.of_Z (Z.max 1 n).
Proof.
  unfold JS.max, one, JS.of_Z. rewrite Qle_bool_inject.
  destruct (Z.leb_spec 1 n).
  - rewrite Z.max_r by lia. reflexivity.
  - rewrite Z.max_l by lia. reflexivity.
Qed.

Lemma Qfloor_div_inject (a b : Z) : Qfloor (inject_Z a / inject_Z b) = a / b.
Proof. symmetry. apply Zdiv_Qdiv. Qed.

(** ** The calculator, field by field *)

Lemma price_lots_number (p q b : Z) :
  b <> 0 ->
  JS.floor (JS.div (JS.mul (JS.of_Z p) (JS.of_Z q)) (JS.mul (JS.of_Z b) million))
  = JS.of_Z (p * q / (b * 1000000)).
Proof.
  intros Hb. unfold million. cbn [JS.mul JS.of_Z].
  unfold JS.div.
  assert (Hz : Qeq_bool (inject_Z b * inject_Z 1000000) 0 = false).
  { destruct (Qeq_bool (inject_Z b * inject_Z 1000000) 0) eqn:E; [| reflexivity].
    apply Qeq_bool_eq in E. rewrite <- inject_Z_mult in E.
    change 0%Q with (inject_Z 0) in E. apply -> inject_Z_injective in E. lia. }
  rewrite Hz. cbn [JS.floor]. f_equal.
  rewrite <- !inject_Z_mult. apply Qfloor_div_inject.
Qed.

Lemma base_lots_number (s b : Z) :
  b <> 0 -> JS.floor (JS.div (JS.of_Z s) (JS.of_Z b)) = JS.of_Z (s / b).
Proof.
  intros Hb. unfold JS.of_Z at 1 2. rewrite div_of_Z_r by exact Hb.
  cbn [JS.floor]. f_equal. apply Qfloor_div_inject.
Qed.

Lemma quote_lots_number (p s q : Z) :
  q <> 0 ->
  JS.floor
    (JS.div
       (JS.div (JS.mul (JS.mul (JS.of_Z p) (JS.of_Z s)) safety_factor) million)
       (JS.of_Z q))
  = JS.of_Z (p * s * 11 / (10000000 * q)).
Proof.
  intros Hq. unfold million, safety_factor. unfold JS.of_Z at 1 2 3 4. cbn [JS.mul].
  rewrite (div_of_Z_r _ 1000000) by lia.
  rewrite div_of_Z_r by exact Hq.
  cbn [JS.floor]. f_equal.
  rewrite <- Qfloor_div_inject. apply Qfloor_comp.
  rewrite !inject_Z_mult. rewrite (Qmake_Qdiv 11 10).
  assert (Hq' : ~ inject_Z q == 0).
  { change 0%Q with (inject_Z 0). intros E. apply -> inject_Z_injective in E. contradiction. }
  field. exact Hq'.
Qed.

(** Whatever the calculator returns is given by three floor divisions; it
    returns nothing for a zero lot size. *)
Lemma computeLots_inv (m : Market) (o : OrderParams) (l : Lots) :
  computeLots m o = Ok l ->
  baseLotSize m <> 0 /\ quoteLotSize m <> 0 /\
  priceLots l = Z.max 1 (price o * quoteLotSize m / (baseLotSize m * 1000000)) /\
  maxBaseLots l = size o / baseLotSize m /\
  maxQuoteLotsIncludingFees l = price o * size o * 11 / (10000000 * quoteLotSize m).
Proof.
  destruct m as [b q bm], o as [p s cid]. unfold computeLots. cbn [price size baseLotSize quoteLotSize].
  destruct (BN.toNumber p) as [xp |] eqn:Hp; [| discriminate].
  destruct (BN.toNumber s) as [xs |] eqn:Hs; [| discriminate].
  destruct (BN.toNumber q) as [xq |] eqn:Hq; [| discriminate].
  destruct (BN.toNumber b) as [xb |] eqn:Hb; [| discriminate].
  apply toNumber_inv in Hp as [-> _]. apply toNumber_inv in Hs as [-> _].
  apply toNumber_inv in Hq as [-> _]. apply toNumber_inv in Hb as [-> _].
  cbn [Res.bind].
  destruct (BN.ofNumber (JS.max one _)) as [pl |] eqn:Hpl; [| discriminate].
  cbn [Res.bind].
  destruct (BN.ofNumber (JS.floor (JS.div (JS.of_Z s) (JS.of_Z b)))) as [mb |] eqn:Hmb;
    [| discriminate].
  cbn [Res.bind].
  destruct (BN.ofNumber (JS.floor (JS.div _ (JS.of_Z q)))) as [mq |] eqn:Hmq;
    [| discriminate].
  cbn [Res.bind]. intros [= <-]. cbn [priceLots maxBaseLots maxQuoteLotsIncludingFees].
  assert (Hb0 : b <> 0).
  { intros ->. apply ofNumber_floor_inv in Hmb as (x & Hx & _).
    unfold JS.of_Z in Hx. exact (div_by_zero _ _ Hx). }
  assert (Hq0 : q <> 0).
  { intros ->. apply ofNumber_floor_inv in Hmq as (x & Hx & _).
    unfold million, safety_factor, JS.of_Z in Hx. cbn [JS.mul] in Hx.
    rewrite (div_of_Z_r _ 1000000) in Hx by lia.
    exact (div_by_zero _ _ Hx). }
  rewrite price_lots_number, max_one_of_Z in Hpl by exact Hb0.
  rewrite base_lots_number in Hmb by exact Hb0.
  rewrite quote_lots_number in Hmq by exact Hq0.
  apply ofNumber_of_Z_inv in Hpl as [-> _].
  apply ofNumber_of_Z_inv in Hmb as [-> _].
  apply ofNumber_of_Z_inv in Hmq as [-> _].
  repeat split; assumption.
Qed.




(** What the three formulas give on the regression fixture of the
    specification (quantity 1000, price 1.04, both lot sizes 1). *)
Example spec_formulas_fixture :
  spec_price_in_lots 1040000 1 1 = 1040000 /\
  spec_max_base_lots 1000000000 1 = 1000000000 /\
  spec_max_quote_lots 1040000 1000000000 1 = 1144000000000000.
Proof. vm_compute. repeat split. Qed.

(** The clamp at work: a raw value of 0 becomes 1 lot. *)
Example computeLots_tiny_price :
  computeLots fixture_market (mkOrderParams 1 1000000 0) = Ok (mkLots 1 1000000 1).
Proof. vm_compute. reflexivity. Qed.

(** A quantity below one base lot: zero base lots are returned as they
    are. *)
Example computeLots_below_one_lot :
  computeLots (mkMarket 1000 1 "") (mkOrderParams 1040000 999 0) = Ok (mkLots 1 0 1142).
Proof. vm_compute. reflexivity. Qed.

(** The fixture and the inputs of the examples above in binary64: the
    floors are those of the exact model. *)
Module Binary64Fixtures.

Import PrimFloat.
Local Open Scope float_scope.

Example binary64_fixture :
  Binary64.floors_to (Binary64.priceLotsCalculation 1040000 1 1) 1 = true /\
  Binary64.floors_to (Binary64.maxBaseLots_raw 1000000000 1) 1000000000 = true /\
  Binary64.floors_to (Binary64.maxQuoteLots_raw 1040000 1000000000 1) 1144000000 = true.
Proof. vm_compute. repeat split. Qed.

Example binary64_negative_size :
  Binary64.floors_to (Binary64.priceLotsCalculation 1040000 1 1) 1 = true /\
  Binary64.floors_to (Binary64.maxBaseLots_raw (-1000000) 1) (-1000000) = true /\
  Binary64.floors_to (Binary64.maxQuoteLots_raw 1040000 (-1000000) 1) (-1144000) = true.
Proof. vm_compute. repeat split. Qed.

Example binary64_below_one_lot :
  Binary64.floors_to (Binary64.priceLotsCalculation 1040000 1 1000) 0 = true /\
  Binary64.floors_to (Binary64.maxBaseLots_raw 999 1000) 0 = true /\
  Binary64.floors_to (Binary64.maxQuoteLots_raw 1040000 999 1) 1142 = true.
Proof. vm_compute. repeat split. Qed.

End Binary64Fixtures.

(** The size [mintIrmaToken] derives from a non-negative human quantity
    (line 273) is non-negative. *)
Lemma size_of_nonnegative_amount (a : Q) (s : BN.t) :
  (0 <= a)%Q ->
  BN.ofNumber (JS.floor (JS.mul (JS.Fin a) million)) = Ok s ->
  0 <= s.
Proof.
  intros Ha H. apply ofNumber_floor_inv in H as (q & Hq & -> & _).
  unfold million, JS.of_Z in Hq. cbn [JS.mul] in Hq. injection Hq as <-.
  rewrite <- (Qfloor_Z 0). apply Qfloor_resp_le.
  apply Qmult_le_0_compat; [exact Ha | discriminate].
Qed.

(** ** C1: price in lots *)




(** ** C2: maximum base lots *)



(** ** C3: maximum quote lots *)




(** ** C4: the invariant of the computed lots *)

(** C4, as worded: every computed set of lots would have non-negative
    fields.  A negative size (reached through [mintIrmaToken] with amount
    -1) gives negative base and quote lots: nothing rejects them. *)
Lemma C4_invariant_as_worded_fails :
  computeLots fixture_market (mkOrderParams 1040000 (-1000000) 0)
    = Ok (mkLots 1 (-1000000) (-1144000))
  /\ ~ lots_invariant (mkLots 1 (-1000000) (-1144000)).
Proof.
  split.
  - vm_compute. reflexivity.
  - unfold lots_invariant. simpl. lia.
Qed.

(** C4, amended: for a non-negative price and size and positive lot sizes,
    every computed set of lots has a price of at least 1 lot and
    non-negative base and quote maxima. *)
Theorem C4_invariant_nonnegative_inputs (m : Market) (o : OrderParams) (l : Lots) :
  0 <= price o -> 0 <= size o -> 0 < baseLotSize m -> 0 < quoteLotSize m ->
  computeLots m o = Ok l ->
  lots_invariant l.
Proof.
  intros Hp Hs Hb Hq H.
  apply computeLots_inv in H as (_ & _ & Hpl & Hmb & Hmq).
  unfold lots_invariant. rewrite Hpl, Hmb, Hmq.
  repeat split; try lia.
  - apply Z.div_pos; lia.
  - apply Z.div_pos; [nia | lia].
Qed.

Lemma C4_invariant_nonnegative_inputs_witness :
  lots_invariant (mkLots 1 1000000000 1144000000).
Proof.
  apply (C4_invariant_nonnegative_inputs fixture_market fixture_order);
    [simpl; lia | simpl; lia | simpl; lia | simpl; lia | vm_compute; reflexivity].
Defined.

(** ** Reasoning in the monad *)

Lemma bind_Ok_inv {A B} (m : M A) (k : A -> M B) (w w' : World) (b : B) :
  bind m k w = (Ok b, w') ->
  exists a w1, m w = (Ok a, w1) /\ k a w1 = (Ok b, w').
Proof.
  unfold bind. destruct (m w) as [[a | e] w1]; intros H.
  - exists a, w1. split; [reflexivity | exact H].
  - discriminate.
Qed.

Lemma bind_Ok {A B} (m : M A) (k : A -> M B) (w w1 : World) (a : A) :
  m w = (Ok a, w1) -> bind m k w = k a w1.
Proof. intros H. unfold bind. rewrite H. reflexivity. Qed.

Lemma bind_Throw {A B} (m : M A) (k : A -> M B) (w w1 : World) (e : Exn) :
  m w = (Throw e, w1) -> bind m k w = (Throw e, w1).
Proof. intros H. unfold bind. rewrite H. reflexivity. Qed.

Lemma try_catch_Ok {A} (m : M A) (h : Exn -> M A) (w w1 : World) (a : A) :
  m w = (Ok a, w1) -> try_catch m h w = (Ok a, w1).
Proof. intros H. unfold try_catch. rewrite H. reflexivity. Qed.

Lemma try_catch_Throw {A} (m : M A) (h : Exn -> M A) (w w1 : World) (e : Exn) :
  m w = (Throw e, w1) -> try_catch m h w = h e w1.
Proof. intros H. unfold try_catch. rewrite H. reflexivity. Qed.

(** *** What a computation leaves unchanged *)

Lemma count_record (P : Event -> bool) (ev : Event) (w : World) :
  count P (record ev w) = (count P w + if P ev then 1 else 0)%nat.
Proof.
  unfold count, record. cbn [trace].
  rewrite List.filter_app, List.length_app. cbn [List.filter].
  destruct (P ev); reflexivity.
Qed.

Section Preserving.

Context {X : Type} (obs : World -> X).

(** The observation depends neither on the clock nor on the limiters. *)
Hypothesis obs_advance : forall d w, obs (advance d w) = obs w.
Hypothesis obs_limiter : forall l t w, obs (store_lastRequestTime l t w) = obs w.

Lemma preserves_ret {A} (a : A) : preserves obs (ret a).
Proof. intros w r w' [= _ <-]. reflexivity. Qed.

Lemma preserves_throw {A} (e : Exn) : preserves obs (@throw A e).
Proof. intros w r w' [= _ <-]. reflexivity. Qed.

Lemma preserves_lift {A} (x : result A) : preserves obs (lift x).
Proof. intros w r w' [= _ <-]. reflexivity. Qed.

Lemma preserves_look {A} (f : World -> result A) : preserves obs (look f).
Proof. intros w r w' [= _ <-]. reflexivity. Qed.

Lemma preserves_Date_now : preserves obs Date_now.
Proof. apply preserves_look. Qed.

Lemma preserves_console_log (line : string) : preserves obs (console_log line).
Proof. apply preserves_ret. Qed.

Lemma preserves_update (f : World -> World) :
  (forall w, obs (f w) = obs w) -> preserves obs (update f).
Proof. intros Hf w r w' [= _ <-]. apply Hf. Qed.

Lemma preserves_sleep (env : Env) (ms : Z) : preserves obs (sleep env ms).
Proof. intros w r w' [= _ <-]. apply obs_advance. Qed.

Lemma preserves_call {A} (env : Env) (ev : Event) (f : World -> result A) :
  (forall w, obs (record ev w) = obs w) -> preserves obs (call env ev f).
Proof.
  intros Hev w r w' [= _ <-]. rewrite obs_advance. apply Hev.
Qed.

Lemma preserves_bind {A B} (m : M A) (k : A -> M B) :
  preserves obs m -> (forall a, preserves obs (k a)) -> preserves obs (bind m k).
Proof.
  intros Hm Hk w r w'. unfold bind.
  destruct (m w) as [[a | e] w1] eqn:E; intros H.
  - rewrite (Hk a _ _ _ H). exact (Hm _ _ _ E).
  - injection H as _ <-. exact (Hm _ _ _ E).
Qed.

Lemma preserves_try_catch {A} (m : M A) (h : Exn -> M A) :
  preserves obs m -> (forall e, preserves obs (h e)) -> preserves obs (try_catch m h).
Proof.
  intros Hm Hh w r w'. unfold try_catch.
  destruct (m w) as [[a | e] w1] eqn:E; intros H.
  - injection H as _ <-. exact (Hm _ _ _ E).
  - rewrite (Hh e _ _ _ H). exact (Hm _ _ _ E).
Qed.

Lemma preserves_try_finally {A} (m : M A) (c : M unit) :
  preserves obs m -> preserves obs c -> preserves obs (try_finally m c).
Proof.
  intros Hm Hc w r w'. unfold try_finally.
  destruct (m w) as [r1 w1] eqn:E. destruct (c w1) as [[u | e] w2] eqn:E2;
    intros [= _ <-]; rewrite (Hc _ _ _ E2); exact (Hm _ _ _ E).
Qed.

Lemma preserves_throttle (env : Env) (l : Limiter) : preserves obs (throttle env l).
Proof.
  unfold throttle.
  apply preserves_bind; [apply preserves_Date_now | intros now].
  apply preserves_bind; [apply preserves_look | intros last].
  apply preserves_bind.
  - destruct (_ <? _); [apply preserves_sleep | apply preserves_ret].
  - intros _. apply preserves_bind; [apply preserves_Date_now | intros now'].
    apply preserves_update. intros w. apply obs_limiter.
Qed.

Lemma preserves_probe (env : Env) (candidates : list Endpoint) :
  (forall e w, obs (record (GetSlot e) w) = obs w) ->
  preserves obs (probe env candidates).
Proof.
  intros HP. induction candidates as [| e rest IH]; cbn [probe].
  - apply preserves_throw.
  - apply preserves_try_catch; [| intros _; exact IH].
    apply preserves_bind; [apply preserves_call, HP | intros _; apply preserves_ret].
Qed.

Lemma preserves_getWorkingConnection (env : Env) :
  (forall e w, obs (record (GetSlot e) w) = obs w) ->
  preserves obs (getWorkingConnection env).
Proof. apply preserves_probe. Qed.

End Preserving.

(** Recording an event that [P] rejects leaves the count of [P] as it is. *)
Lemma count_record_other (P : Event -> bool) (ev : Event) (w : World) :
  P ev = false -> count P (record ev w) = count P w.
Proof. intros H. rewrite count_record, H. apply Nat.add_0_r. Qed.

(** One step of a proof that a computation preserves an observation: split
    a sequence or a [try], case on what a branch scrutinises, or close a
    primitive. *)
Ltac preserves_side :=
  intros; first [reflexivity | apply count_record_other; reflexivity].

Ltac preserves_step :=
  match goal with
  | |- preserves _ (bind _ _) => apply preserves_bind; [| intros ?]
  | |- preserves _ (try_catch _ _) => apply preserves_try_catch; [| intros ?]
  | |- preserves _ (try_finally _ _) => apply preserves_try_finally
  | |- preserves _ (call _ _ _) => apply preserves_call; preserves_side
  | |- preserves _ (throttle _ _) => apply preserves_throttle; preserves_side
  | |- preserves _ (getWorkingConnection _) =>
      apply preserves_getWorkingConnection; preserves_side
  | |- preserves _ (sleep _ _) => apply preserves_sleep; preserves_side
  | |- preserves _ (update _) => apply preserves_update; preserves_side
  | |- preserves _ (ret _) => apply preserves_ret
  | |- preserves _ (throw _) => apply preserves_throw
  | |- preserves _ (lift _) => apply preserves_lift
  | |- preserves _ (look _) => apply preserves_look
  | |- preserves _ Date_now => apply preserves_Date_now
  | |- preserves _ (console_log _) => apply preserves_console_log
  | |- preserves _ (match ?x with _ => _ end) => destruct x
  | |- preserves _ (if ?x then _ else _) => destruct x
  end.

Ltac preserves_tac := unfold quiet; repeat preserves_step.

(** ** C9: the rate limiter *)

(** One call: it returns, its return time is the time it stores, and that
    time is at least one interval after the time stored before. *)
Lemma throttle_run (env : Env) (l : Limiter) (w : World) :
  exists w',
    throttle env l w = (Ok tt, w') /\
    lastRequestTime w' l = clock w' /\
    lastRequestTime w l + RATE_LIMIT_DELAY <= clock w' /\
    trace w' = trace w.
Proof.
  unfold throttle, bind, Date_now, look, update, sleep, ret. cbn [clock].
  destruct (Z.ltb_spec (clock w - lastRequestTime w l) RATE_LIMIT_DELAY) as [Hlt | Hge];
    eexists; (split; [reflexivity |]);
    unfold store_lastRequestTime, advance; cbn [clock lastRequestTime trace];
    (destruct l; cbn [Limiter_eqb]); repeat split; lia.
Qed.



(** ** C10: the order status placeholder *)

(** C10: whatever the order id, [getOrderStatus] returns, and what it
    returns is not null but the fixed record: pending, filled 0,
    remaining 0, price 1.04. *)
Theorem C10_getOrderStatus_constant (orderId : string) (w : World) :
  getOrderStatus orderId w =
    (Ok (Some (mkOrderStatus pending (Some (JS.of_Z 0)) (Some (JS.of_Z 0))
                 (Some (JS.Fin (104 # 100))))), w)
  /\ fst (getOrderStatus orderId w) <> Ok None.
Proof.
  split; [reflexivity | discriminate].
Qed.

(** ** C5: the connection selector *)

Lemma probed_app (a b : list Event) : probed_in (a ++ b) = (probed_in a ++ probed_in b)%list.
Proof. unfold probed_in. apply List.flat_map_app. Qed.

Lemma probe_step_dead (env : Env) (e : Endpoint) (rest : list Endpoint) (w : World) :
  is_ok (getSlot env w e) = false ->
  probe env (e :: rest) w
  = probe env rest (advance (Z.of_N (elapsed env w)) (record (GetSlot e) w)).
Proof.
  intros H. cbn [probe]. unfold try_catch, bind, call.
  destruct (getSlot env w e); [discriminate | reflexivity].
Qed.

Lemma probe_step_live (env : Env) (e : Endpoint) (rest : list Endpoint) (w : World) :
  is_ok (getSlot env w e) = true ->
  probe env (e :: rest) w
  = (Ok (mkConnection e), advance (Z.of_N (elapsed env w)) (record (GetSlot e) w)).
Proof.
  intros H. cbn [probe]. unfold try_catch, bind, call, ret.
  destruct (getSlot env w e); [reflexivity | discriminate].
Qed.

Lemma probed_step (d : Z) (e : Endpoint) (w : World) :
  probed (advance d (record (GetSlot e) w)) = (probed w ++ [e])%list.
Proof. unfold probed. cbn [advance record trace]. apply probed_app. Qed.

(** The loop stops at the first endpoint that answers. *)
Lemma probe_first_live (env : Env) (pre : list Endpoint) (e : Endpoint)
    (post : list Endpoint) :
  (forall e' w', In e' pre -> is_ok (getSlot env w' e') = false) ->
  (forall w', is_ok (getSlot env w' e) = true) ->
  forall w, exists w',
    probe env (pre ++ e :: post) w = (Ok (mkConnection e), w') /\
    probed w' = (probed w ++ pre ++ [e])%list.
Proof.
  intros Hpre He. induction pre as [| e' pre IH]; intros w.
  - cbn [app]. rewrite probe_step_live by apply He.
    eexists. split; [reflexivity | apply probed_step].
  - cbn [app]. rewrite probe_step_dead by (apply Hpre; left; reflexivity).
    specialize (IH (fun x w' Hx => Hpre x w' (or_intror Hx))).
    destruct (IH (advance (Z.of_N (elapsed env w)) (record (GetSlot e') w)))
      as (w' & E & Hp).
    exists w'. split; [exact E |].
    rewrite Hp, probed_step, <- List.app_assoc. reflexivity.
Qed.

(** With no endpoint answering, every one is probed and the loop ends in
    the final [throw]. *)
Lemma probe_all_dead (env : Env) (candidates : list Endpoint) :
  (forall e' w', In e' candidates -> is_ok (getSlot env w' e') = false) ->
  forall w, exists w',
    probe env candidates w = (Throw (ErrorObj "All RPC endpoints failed"), w') /\
    probed w' = (probed w ++ candidates)%list.
Proof.
  intros Hdead. induction candidates as [| e rest IH]; intros w.
  - exists w. split; [reflexivity |]. rewrite List.app_nil_r. reflexivity.
  - rewrite probe_step_dead by (apply Hdead; left; reflexivity).
    specialize (IH (fun x w' Hx => Hdead x w' (or_intror Hx))).
    destruct (IH (advance (Z.of_N (elapsed env w)) (record (GetSlot e) w)))
      as (w' & E & Hp).
    exists w'. split; [exact E |].
    rewrite Hp, probed_step, <- List.app_assoc. reflexivity.
Qed.

(** C5: the endpoints are probed in list order; the connection returned
    targets the first endpoint that answers, and no endpoint after it is
    probed; when none answers the call fails with "All RPC endpoints
    failed" after probing each once. *)
Theorem C5_first_live_endpoint (env : Env) (w : World) :
  (forall pre e post,
      endpoints = (pre ++ e :: post)%list ->
      (forall e' w', In e' pre -> is_ok (getSlot env w' e') = false) ->
      (forall w', is_ok (getSlot env w' e) = true) ->
      exists w',
        getWorkingConnection env w = (Ok (mkConnection e), w') /\
        probed w' = (probed w ++ pre ++ [e])%list)
  /\
  ((forall e' w', In e' endpoints -> is_ok (getSlot env w' e') = false) ->
   exists w',
     getWorkingConnection env w = (Throw (ErrorObj "All RPC endpoints failed"), w') /\
     probed w' = (probed w ++ endpoints)%list).
Proof.
  split.
  - intros pre e post Hsplit Hpre He. unfold getWorkingConnection.
    rewrite Hsplit. apply probe_first_live; assumption.
  - intros Hdead. unfold getWorkingConnection. apply probe_all_dead. exact Hdead.
Qed.

Lemma C5_first_live_endpoint_witness :
  (exists w',
      getWorkingConnection live_env (initial_World 0)
        = (Ok (mkConnection second_endpoint), w') /\
      probed w' = [first_endpoint; second_endpoint]) /\
  (exists w',
      getWorkingConnection dead_env (initial_World 0)
        = (Throw (ErrorObj "All RPC endpoints failed"), w') /\
      probed w' = endpoints).
Proof.
  split.
  - destruct (C5_first_live_endpoint live_env (initial_World 0)) as [Hfirst _].
    apply (Hfirst [first_endpoint] second_endpoint [third_endpoint]).
    + reflexivity.
    + intros e' w' [<- | []]. reflexivity.
    + intros w'. reflexivity.
  - destruct (C5_first_live_endpoint dead_env (initial_World 0)) as [_ Hnone].
    apply Hnone. intros e' w' _. reflexivity.
Defined.

(** The scenario of the specification, evaluated: the first endpoint
    fails, the second answers, the third is not probed. *)
Example getWorkingConnection_second :
  let '(r, w') := getWorkingConnection live_env (initial_World 0) in
  r = Ok (mkConnection second_endpoint) /\
  trace w' = [GetSlot first_endpoint; GetSlot second_endpoint] /\
  ~ In third_endpoint (probed w').
Proof.
  vm_compute. repeat split. intros [H | [H | []]]; discriminate.
Qed.

(** ** C6: no broadcast after a failure *)

(** Nothing is broadcast while the order is prepared and signed. *)
Lemma prepareSignedOrder_quiet (env : Env) (connection : Connection)
    (marketAddress wallet : PublicKey) (signTransaction : SignCallback)
    (orderParams : OrderParams) :
  quiet is_broadcast
    (prepareSignedOrder env connection marketAddress wallet signTransaction orderParams).
Proof.
  unfold prepareSignedOrder. preserves_tac.
Qed.

(** The two ways the submitter ends: in the handler, with nothing sent,
    when the preparation threw; after exactly one [sendRawTransaction]
    otherwise, with success when that call returned. *)
Lemma createOpenBookV2OrderInstruction_cases (env : Env) (connection : Connection)
    (marketAddress wallet : PublicKey) (signTransaction : SignCallback)
    (orderParams : OrderParams) (w : World) :
  createOpenBookV2OrderInstruction env connection marketAddress wallet
    signTransaction orderParams w
  = match prepareSignedOrder env connection marketAddress wallet signTransaction
            orderParams w with
    | (Throw e, w1) => (Ok (failed e), w1)
    | (Ok raw, w1) =>
        (match sendRawTransaction env w1 (rpcEndpoint connection) raw with
         | Ok txHash =>
             Ok (mkOrderResult true (Some txHash)
                   "OpenBook v2 order instruction created successfully"
                   (Some new_Transaction))
         | Throw e => Ok (failed e)
         end,
         advance (Z.of_N (elapsed env w1))
           (record (SendRawTransaction (rpcEndpoint connection) raw) w1))
    end.
Proof.
  unfold createOpenBookV2OrderInstruction, try_catch, bind.
  destruct (prepareSignedOrder _ _ _ _ _ _ w) as [[raw | e] w1].
  - unfold call, ret.
    destruct (sendRawTransaction env w1 (rpcEndpoint connection) raw); reflexivity.
  - reflexivity.
Qed.

(** The submitter always returns a result, sends at most once, and reports
    success only after sending. *)
Lemma createOpenBookV2OrderInstruction_broadcasts (env : Env) (connection : Connection)
    (marketAddress wallet : PublicKey) (signTransaction : SignCallback)
    (orderParams : OrderParams) (w : World) :
  exists res w',
    createOpenBookV2OrderInstruction env connection marketAddress wallet
      signTransaction orderParams w = (Ok res, w') /\
    (forall e w1,
        prepareSignedOrder env connection marketAddress wallet signTransaction
          orderParams w = (Throw e, w1) ->
        success res = false /\ w' = w1 /\ broadcasts w' = broadcasts w) /\
    (success res = true ->
       broadcasts w' = (broadcasts w + 1)%nat /\
       exists raw w1,
         prepareSignedOrder env connection marketAddress wallet signTransaction
           orderParams w = (Ok raw, w1) /\
         is_ok (sendRawTransaction env w1 (rpcEndpoint connection) raw) = true).
Proof.
  rewrite createOpenBookV2OrderInstruction_cases.
  pose proof (prepareSignedOrder_quiet env connection marketAddress wallet
                signTransaction orderParams w) as Hq.
  destruct (prepareSignedOrder _ _ _ _ _ _ w) as [[raw | e] w1].
  - specialize (Hq _ _ eq_refl).
    assert (Hb : broadcasts
                   (advance (Z.of_N (elapsed env w1))
                      (record (SendRawTransaction (rpcEndpoint connection) raw) w1))
                 = (broadcasts w + 1)%nat).
    { unfold broadcasts.
      change (count is_broadcast (advance ?d ?x)) with (count is_broadcast x).
      rewrite count_record, Hq. reflexivity. }
    destruct (sendRawTransaction env w1 (rpcEndpoint connection) raw) as [txHash | e] eqn:Es;
      eexists; eexists; (split; [reflexivity |]); split.
    + intros e w2 [=].
    + intros _. split; [exact Hb |]. exists raw, w1. rewrite Es. split; reflexivity.
    + intros e' w2 [=].
    + cbn [success failed]. discriminate.
  - specialize (Hq _ _ eq_refl).
    eexists; eexists; (split; [reflexivity |]); split.
    + intros e' w2 [= <- <-]. repeat split. exact Hq.
    + cbn [success failed]. discriminate.
Qed.

Ltac bind_inv H :=
  let a := fresh "a" in
  let w := fresh "w" in
  let E := fresh "E" in
  apply bind_Ok_inv in H as (a & w & E & H).

(** When the preparation returns, each of its steps has returned: the
    market was fetched and was not null, the lots were computed, the order
    instruction was built and the transaction was signed. *)
Lemma prepareSignedOrder_Ok_inv (env : Env) (connection : Connection)
    (marketAddress wallet : PublicKey) (signTransaction : SignCallback)
    (orderParams : OrderParams) (w w1 : World) (raw : string) :
  prepareSignedOrder env connection marketAddress wallet signTransaction
    orderParams w = (Ok raw, w1) ->
  (exists wa m lots,
      market_fetch env wa marketAddress = Ok (Some m) /\
      computeLots m orderParams = Ok lots) /\
  (exists wp openOrders userAccount args,
      is_ok (placeOrderIx env wp openOrders marketAddress userAccount args) = true) /\
  (exists ws tx signedTx,
      signTransaction ws tx = Ok signedTx /\ serialize env signedTx = Ok raw).
Proof.
  unfold prepareSignedOrder. intros H.
  bind_inv H. bind_inv H. bind_inv H. destruct a1 as [ixs openOrders].
  bind_inv H. bind_inv H. bind_inv H. bind_inv H. bind_inv H. bind_inv H.
  bind_inv H. bind_inv H. bind_inv H.
  unfold call in E0, E7, E10. unfold lift in E3, H.
  injection E0 as Hfetch _. injection E3 as Hlots _. injection E7 as Hix _.
  injection E10 as Hsign _. injection H as Hser _.
  destruct a0 as [m |]; [| discriminate E2]. injection E2 as -> _.
  repeat split.
  - exists w0, a1, a2. split; assumption.
  - eexists _, _, _, _. rewrite Hix. reflexivity.
  - eexists _, _, _. split; eassumption.
Qed.

(** The steps the specification names, one by one: when the market cannot
    be fetched or is null, or the lots cannot be computed, or the order
    instruction cannot be built, or the wallet does not sign, the result is
    a failure and nothing was broadcast. *)
Lemma createOpenBookV2OrderInstruction_named_failures (env : Env)
    (connection : Connection) (marketAddress wallet : PublicKey)
    (signTransaction : SignCallback) (orderParams : OrderParams) (w : World) :
  (forall w0 m, market_fetch env w0 marketAddress <> Ok (Some m)) \/
  (forall m, is_ok (computeLots m orderParams) = false) \/
  (forall w0 openOrders userAccount args,
      is_ok (placeOrderIx env w0 openOrders marketAddress userAccount args) = false) \/
  (forall w0 tx, is_ok (signTransaction w0 tx) = false) ->
  exists res w',
    createOpenBookV2OrderInstruction env connection marketAddress wallet
      signTransaction orderParams w = (Ok res, w') /\
    success res = false /\ broadcasts w' = broadcasts w.
Proof.
  intros Hstep.
  destruct (createOpenBookV2OrderInstruction_broadcasts env connection marketAddress
              wallet signTransaction orderParams w) as (res & w' & E & Hfail & _).
  exists res, w'. split; [exact E |].
  destruct (prepareSignedOrder env connection marketAddress wallet signTransaction
              orderParams w) as [[raw | e] w1] eqn:Ep.
  - exfalso. apply prepareSignedOrder_Ok_inv in Ep
      as ((wa & m & lots & Hm & Hl) & (wp & oo & ua & args & Hix) & (ws & tx & stx & Hs & _)).
    destruct Hstep as [H | [H | [H | H]]].
    + exact (H wa m Hm).
    + specialize (H m). rewrite Hl in H. discriminate.
    + specialize (H wp oo ua args). rewrite Hix in H. discriminate.
    + specialize (H ws tx). rewrite Hs in H. discriminate.
  - destruct (Hfail e w1 eq_refl) as (Hs & _ & Hb). split; assumption.
Qed.

(** The outer [try]/[catch]: the body's value when it returns, [false] when
    it throws; never an exception. *)
Lemma mintIrmaToken_cases (env : Env) (wallet : PublicKey) (amount : JS.number)
    (signTransaction : SignCallback) (w : World) :
  mintIrmaToken env wallet amount signTransaction w
  = match mintIrmaToken_body env wallet amount signTransaction w with
    | (Ok b, w1) => (Ok b, w1)
    | (Throw _, w1) => (Ok false, w1)
    end.
Proof.
  unfold mintIrmaToken, try_catch.
  destruct (mintIrmaToken_body env wallet amount signTransaction w) as [[b | e] w1].
  - reflexivity.
  - destruct (mint_error_hint e); reflexivity.
Qed.

(** C6: the submitter always returns a result.  When any step before the
    broadcast throws (building the client, fetching the market, computing
    the lots, building the instructions, fetching the blockhash,
    simulating, signing, serialising), the result has success = false and
    [sendRawTransaction] was not called; a result with success = true comes
    with exactly one call of it.  When no connection can be acquired,
    [mintIrmaToken] returns false and nothing was broadcast either. *)
Theorem C6_no_broadcast_before_failure (env : Env) (wallet : PublicKey)
    (signTransaction : SignCallback) :
  (forall connection marketAddress orderParams w,
      exists res w',
        createOpenBookV2OrderInstruction env connection marketAddress wallet
          signTransaction orderParams w = (Ok res, w') /\
        (forall e w1,
            prepareSignedOrder env connection marketAddress wallet signTransaction
              orderParams w = (Throw e, w1) ->
            success res = false /\ broadcasts w' = broadcasts w) /\
        (success res = true -> broadcasts w' = (broadcasts w + 1)%nat))
  /\
  (forall amount w,
      (forall w0, is_ok (fst (getWorkingConnection env w0)) = false) ->
      exists w',
        mintIrmaToken env wallet amount signTransaction w = (Ok false, w') /\
        broadcasts w' = broadcasts w).
Proof.
  split.
  - intros connection marketAddress orderParams w.
    destruct (createOpenBookV2OrderInstruction_broadcasts env connection marketAddress
                wallet signTransaction orderParams w) as (res & w' & E & Hfail & Hok).
    exists res, w'. split; [exact E |]. split.
    + intros e w1 Hp. destruct (Hfail e w1 Hp) as (Hs & _ & Hb). split; assumption.
    + intros Hs. apply Hok. exact Hs.
  - intros amount w Hdead. rewrite mintIrmaToken_cases. unfold mintIrmaToken_body.
    destruct (throttle_run env MintLimiter w) as (w1 & E1 & _ & _ & Htr).
    rewrite (bind_Ok _ _ _ _ _ E1).
    specialize (Hdead w1).
    destruct (getWorkingConnection env w1) as [[c | e] w2] eqn:E2; [discriminate |].
    rewrite (bind_Throw _ _ _ _ _ E2).
    exists w2. split; [reflexivity |].
    assert (Hq : quiet is_broadcast (getWorkingConnection env)) by preserves_tac.
    apply Hq in E2. unfold broadcasts. rewrite E2. unfold count. rewrite Htr.
    reflexivity.
Qed.

(** An order whose price does not fit in 53 bits: the lots cannot be
    computed. *)
Example computeLots_price_too_large :
  computeLots fixture_market (mkOrderParams (2 ^ 53) 1000000 0)
  = Throw (ErrorObj "Number can only safely store up to 53 bits").
Proof. vm_compute. reflexivity. Qed.

Lemma C6_no_broadcast_before_failure_witness :
  (exists res w',
      createOpenBookV2OrderInstruction live_env (mkConnection second_endpoint)
        MARKET_ADDRESS fixture_wallet signer (mkOrderParams (2 ^ 53) 1000000 0)
        (initial_World 1700000000000) = (Ok res, w') /\
      success res = false /\ broadcasts w' = 0%nat) /\
  (exists w',
      mintIrmaToken dead_env fixture_wallet (JS.of_Z 1000) signer
        (initial_World 1700000000000) = (Ok false, w') /\
      broadcasts w' = 0%nat).
Proof.
  destruct (C6_no_broadcast_before_failure live_env fixture_wallet signer) as [Hsubmit _].
  destruct (C6_no_broadcast_before_failure dead_env fixture_wallet signer) as [_ Hmint].
  split.
  - destruct (Hsubmit (mkConnection second_endpoint) MARKET_ADDRESS
                (mkOrderParams (2 ^ 53) 1000000 0) (initial_World 1700000000000))
      as (res & w' & E & Hfail & _).
    exists res, w'. split; [exact E |].
    eapply Hfail. vm_compute. reflexivity.
  - apply Hmint. intros w0. reflexivity.
Defined.

(** The submitter on the fixture: one broadcast on success, none when the
    wallet refuses to sign. *)
Example createOpenBookV2OrderInstruction_runs :
  let run sign :=
    createOpenBookV2OrderInstruction live_env (mkConnection second_endpoint)
      MARKET_ADDRESS fixture_wallet sign fixture_order (initial_World 1700000000000) in
  (success_of (fst (run signer)) = Some true /\ broadcasts (snd (run signer)) = 1%nat) /\
  (success_of (fst (run refusing_signer)) = Some false /\
   broadcasts (snd (run refusing_signer)) = 0%nat).
Proof. vm_compute. repeat split. Qed.

(** ** C7: [mintIrmaToken] *)

(** The body returns only [true], and only after one broadcast. *)
Lemma mintIrmaToken_body_Ok_inv (env : Env) (wallet : PublicKey) (amount : JS.number)
    (signTransaction : SignCallback) (w w' : World) (b : bool) :
  mintIrmaToken_body env wallet amount signTransaction w = (Ok b, w') ->
  b = true /\ broadcasts w' = (broadcasts w + 1)%nat.
Proof.
  unfold mintIrmaToken_body. intros H.
  assert (Q : forall A (m : M A) r w1 w2,
             quiet is_broadcast m -> m w1 = (r, w2) ->
             count is_broadcast w2 = count is_broadcast w1).
  { intros A m r w1 w2 Hm Hr. exact (Hm _ _ _ Hr). }
  bind_inv H. apply Q in E; [| preserves_tac].
  bind_inv H. apply Q in E0; [| preserves_tac].
  bind_inv H. apply Q in E1; [| preserves_tac].
  bind_inv H. apply Q in E2; [| preserves_tac].
  bind_inv H. apply Q in E3; [| preserves_tac].
  bind_inv H. apply Q in E4; [| preserves_tac].
  bind_inv H. apply Q in E5; [| preserves_tac].
  bind_inv H.
  destruct (createOpenBookV2OrderInstruction_broadcasts env a0 MARKET_ADDRESS wallet
              signTransaction (mkOrderParams a2 a3 a5) w6)
    as (res & w7' & Ec & _ & Hok).
  rewrite Ec in E6. injection E6 as <- <-.
  bind_inv H.
  destruct (success res) eqn:Hs; cbn [negb] in E6; [| discriminate E6].
  injection E6 as _ <-.
  destruct (Hok eq_refl) as [Hb _].
  bind_inv H. apply Q in E6; [| preserves_tac].
  injection H as <- <-.
  split; [reflexivity |]. unfold broadcasts in *. lia.
Qed.

(** C7: [mintIrmaToken] returns a boolean for every input and every
    behaviour of the outside; it returns [false] whenever anything inside
    threw, and [true] only when the whole sequence ran to its end, one
    transaction having been broadcast. *)
Theorem C7_mintIrmaToken_never_throws (env : Env) (wallet : PublicKey)
    (amount : JS.number) (signTransaction : SignCallback) (w : World) :
  exists b w',
    mintIrmaToken env wallet amount signTransaction w = (Ok b, w') /\
    (forall e w1,
        mintIrmaToken_body env wallet amount signTransaction w = (Throw e, w1) ->
        b = false) /\
    (b = true ->
       mintIrmaToken_body env wallet amount signTransaction w = (Ok true, w') /\
       broadcasts w' = (broadcasts w + 1)%nat).
Proof.
  rewrite mintIrmaToken_cases.
  destruct (mintIrmaToken_body env wallet amount signTransaction w) as [[b | e] w1] eqn:E.
  - destruct (mintIrmaToken_body_Ok_inv _ _ _ _ _ _ _ E) as [-> Hb].
    exists true, w1. repeat split; [discriminate | exact Hb].
  - exists false, w1. repeat split; discriminate.
Qed.

(** ** C8: the balance reader on a wallet without token accounts *)

Section NoTokenAccounts.

Variables (env : Env) (publicKey : PublicKey).

(** Every lookup of the wallet's accounts for a mint finds none. *)
Hypothesis no_accounts :
  forall w endpoint mint,
    getParsedTokenAccountsByOwner env w endpoint publicKey (ByMint mint) = Ok [].

Lemma fetchOne_zero (connection : Connection) (token : Token.t) (w : World) :
  exists w', fetchOne env connection publicKey token w = (Ok (zero_balance token), w').
Proof.
  unfold fetchOne.
  destruct (throttle_run env BalancesLimiter w) as (w1 & E1 & _).
  unfold try_catch at 1. rewrite (bind_Ok _ _ _ _ _ E1).
  unfold bind, try_catch, call, ret.
  destruct (getParsedAccountInfo env w1 (rpcEndpoint connection) (Token.mint token));
    rewrite no_accounts; eexists; reflexivity.
Qed.

Lemma fetchEach_zero (connection : Connection) (tokens : list Token.t) :
  forall (balances : list TokenBalance.t) (w : World),
  exists w',
    fetchEach env connection publicKey tokens balances w
    = (Ok (balances ++ List.map zero_balance tokens)%list, w').
Proof.
  induction tokens as [| token rest IH]; intros balances w; cbn [fetchEach List.map].
  - exists w. rewrite List.app_nil_r. reflexivity.
  - destruct (fetchOne_zero connection token w) as (w1 & E1).
    rewrite (bind_Ok _ _ _ _ _ E1).
    destruct (IH (balances ++ [zero_balance token])%list w1) as (w2 & E2).
    exists w2. rewrite E2, <- List.app_assoc. reflexivity.
Qed.

End NoTokenAccounts.

Lemma fetchOne_preserves {X} (obs : World -> X) (env : Env) (connection : Connection)
    (publicKey : PublicKey) (token : Token.t) :
  (forall d w, obs (advance d w) = obs w) ->
  (forall l t w, obs (store_lastRequestTime l t w) = obs w) ->
  (forall e a w, obs (record (GetParsedAccountInfo e a) w) = obs w) ->
  (forall e m w, obs (record (GetParsedTokenAccountsByOwner e publicKey (ByMint m)) w)
                 = obs w) ->
  preserves obs (fetchOne env connection publicKey token).
Proof.
  intros Ha Hl Hi Ht. unfold fetchOne.
  apply preserves_try_catch; [| intros _; apply preserves_ret].
  apply preserves_bind; [apply preserves_throttle; assumption | intros _].
  apply preserves_bind.
  - apply preserves_try_catch; [| intros _; apply preserves_ret].
    apply preserves_bind; [| intros _; apply preserves_ret].
    apply preserves_call; [assumption | apply Hi].
  - intros _. apply preserves_bind; [apply preserves_call; [assumption | apply Ht] |].
    intros accounts. destruct accounts; apply preserves_ret.
Qed.

Lemma fetchEach_preserves {X} (obs : World -> X) (env : Env) (connection : Connection)
    (publicKey : PublicKey) (tokens : list Token.t) :
  (forall d w, obs (advance d w) = obs w) ->
  (forall l t w, obs (store_lastRequestTime l t w) = obs w) ->
  (forall e a w, obs (record (GetParsedAccountInfo e a) w) = obs w) ->
  (forall e m w, obs (record (GetParsedTokenAccountsByOwner e publicKey (ByMint m)) w)
                 = obs w) ->
  forall balances, preserves obs (fetchEach env connection publicKey tokens balances).
Proof.
  intros Ha Hl Hi Ht. induction tokens as [| token rest IH]; intros balances;
    cbn [fetchEach].
  - apply preserves_ret.
  - apply preserves_bind; [apply fetchOne_preserves; assumption | intros b; apply IH].
Qed.

Lemma fetchTokenBalances_main_zero (env : Env) (publicKey : PublicKey)
    (onBalanceUpdate : bool) (w : World) :
  (forall w0, is_ok (fst (getWorkingConnection env w0)) = true) ->
  (forall w0 endpoint mint,
      getParsedTokenAccountsByOwner env w0 endpoint publicKey (ByMint mint) = Ok []) ->
  exists w',
    fetchTokenBalances_main env publicKey onBalanceUpdate w = (Ok tt, w') /\
    tokenBalances w' = List.map zero_balance TOKENS /\
    scans publicKey w' = (scans publicKey w + 1)%nat /\
    error w' = error w /\ isLoading w' = isLoading w.
Proof.
  intros Hlive Hzero. unfold fetchTokenBalances_main.
  specialize (Hlive w).
  destruct (getWorkingConnection env w) as [[c | e] w1] eqn:E1; [clear Hlive | discriminate].
  rewrite (bind_Ok _ _ _ _ _ E1).
  destruct (fetchEach_zero env publicKey Hzero c TOKENS [] w1) as (w2 & E2).
  rewrite (bind_Ok _ _ _ _ _ E2). cbn [app].
  assert (P1 : forall X (obs : World -> X),
             (forall d w, obs (advance d w) = obs w) ->
             (forall l t w, obs (store_lastRequestTime l t w) = obs w) ->
             (forall ev w, is_scan publicKey ev = false -> obs (record ev w) = obs w) ->
             obs w2 = obs w).
  { intros X obs Ha Hl Hr.
    assert (Hc : preserves obs (getWorkingConnection env)).
    { apply preserves_getWorkingConnection; [exact Ha |]. intros; apply Hr; reflexivity. }
    assert (Hf : preserves obs (fetchEach env c publicKey TOKENS [])).
    { apply fetchEach_preserves; try assumption; intros; apply Hr; reflexivity. }
    rewrite (Hf _ _ _ E2). exact (Hc _ _ _ E1). }
  assert (Hscan : is_scan publicKey
                    (GetParsedTokenAccountsByOwner (rpcEndpoint c) publicKey
                       (ByProgramId TOKEN_PROGRAM_ID)) = true).
  { cbn [is_scan]. rewrite String.eqb_refl. reflexivity. }
  set (w3 := advance (Z.of_N (elapsed env w2))
               (record (GetParsedTokenAccountsByOwner (rpcEndpoint c) publicKey
                          (ByProgramId TOKEN_PROGRAM_ID)) w2)).
  assert (E3 :
             (try_catch
                (bind (call env
                         (GetParsedTokenAccountsByOwner (rpcEndpoint c) publicKey
                            (ByProgramId TOKEN_PROGRAM_ID))
                         (fun w => getParsedTokenAccountsByOwner env w (rpcEndpoint c)
                                     publicKey (ByProgramId TOKEN_PROGRAM_ID)))
                      (fun _ => ret tt))
                (fun _ => ret tt)) w2 = (Ok tt, w3)).
  { unfold try_catch, bind, call, ret. fold w3.
    destruct (getParsedTokenAccountsByOwner env w2 (rpcEndpoint c) publicKey
                (ByProgramId TOKEN_PROGRAM_ID)); reflexivity. }
  change (forallb (fun b => JS.is_zero (TokenBalance.balance b))
            (List.map zero_balance TOKENS)) with true. cbv iota.
  rewrite (bind_Ok _ _ _ _ _ E3).
  assert (S3 : scans publicKey w3 = (scans publicKey w + 1)%nat).
  { unfold scans, w3.
    change (count (is_scan publicKey) (advance ?d ?x)) with (count (is_scan publicKey) x).
    rewrite count_record, Hscan. f_equal.
    apply (P1 _ (count (is_scan publicKey))); try reflexivity.
    intros ev w0 Hev. apply count_record_other. exact Hev. }
  assert (Er : error w3 = error w).
  { apply (P1 _ error); reflexivity. }
  assert (Il : isLoading w3 = isLoading w).
  { apply (P1 _ isLoading); reflexivity. }
  unfold bind, update, notify.
  destruct onBalanceUpdate; eexists; (split; [reflexivity |]); repeat split;
    try assumption.
  unfold scans in *. rewrite count_record_other by reflexivity. exact S3.
Qed.

(** C8: for a connected wallet, with an endpoint answering and no token
    account found for any tracked token, the read ends normally; the
    balances stored are one record per tracked token, in order, each with
    balance 0 and 6 decimals; the untargeted scan by token program was
    attempted once; and this holds whatever that scan answers, an
    exception included: no error is reported and loading is over. *)
Theorem C8_zero_balances (env : Env) (publicKey : PublicKey) (onBalanceUpdate : bool)
    (w : World) :
  (forall w0, is_ok (fst (getWorkingConnection env w0)) = true) ->
  (forall w0 endpoint mint,
      getParsedTokenAccountsByOwner env w0 endpoint publicKey (ByMint mint) = Ok []) ->
  exists w',
    fetchTokenBalances env (Some publicKey) onBalanceUpdate w = (Ok tt, w') /\
    tokenBalances w' = List.map zero_balance TOKENS /\
    scans publicKey w' = (scans publicKey w + 1)%nat /\
    error w' = None /\ isLoading w' = false.
Proof.
  intros Hlive Hzero. unfold fetchTokenBalances.
  destruct (fetchTokenBalances_main_zero env publicKey onBalanceUpdate
              (store_error None (store_isLoading true w)) Hlive Hzero)
    as (w' & E & Hb & Hs & He & Hl).
  cbv beta iota delta [bind update try_finally try_catch].
  rewrite E. eexists. split; [reflexivity |].
  repeat split; assumption.
Qed.

Lemma C8_zero_balances_witness :
  exists w',
    fetchTokenBalances scan_failing_env (Some fixture_wallet) true
      (initial_World 1700000000000) = (Ok tt, w') /\
    tokenBalances w' = List.map zero_balance TOKENS /\
    scans fixture_wallet w' = 1%nat /\
    error w' = None /\ isLoading w' = false.
Proof.
  apply (C8_zero_balances scan_failing_env fixture_wallet true
           (initial_World 1700000000000)).
  - intros w0. reflexivity.
  - intros w0 endpoint mint. reflexivity.
Defined.

(** The same read evaluated, with the scan answering and with the scan
    raising: the stored records are the same two. *)
Example fetchTokenBalances_runs :
  let zeros :=
    [ TokenBalance.mk "IRMA" "IRMA" (JS.of_Z 0) (JS.of_Z 6)
        "BGySzmvQrR69thSD5iVhhBrQ1CLnFYKakszRFuzwb1yj";
      TokenBalance.mk "USDC" "USDC" (JS.of_Z 0) (JS.of_Z 6)
        "7zSzGfA7r8cxhGPyJUX2CJzViLS9FX7a2b3F94qcZLkU" ] in
  let read env :=
    fetchTokenBalances env (Some fixture_wallet) true (initial_World 1700000000000) in
  (fst (read live_env) = Ok tt /\ tokenBalances (snd (read live_env)) = zeros) /\
  (fst (read scan_failing_env) = Ok tt /\
   tokenBalances (snd (read scan_failing_env)) = zeros /\
   scans fixture_wallet (snd (read scan_failing_env)) = 1%nat).
Proof. vm_compute. repeat split. Qed.

(** With no endpoint answering the read degrades to the error message. *)
Example fetchTokenBalances_offline :
  let '(r, w') :=
    fetchTokenBalances dead_env (Some fixture_wallet) true (initial_World 1700000000000) in
  r = Ok tt /\ tokenBalances w' = [] /\
  error w' = Some "Failed to fetch any balances. Please check your connection."%string.
Proof. vm_compute. repeat split. Qed.

(** A negative amount passes through [mintIrmaToken]: the order built for
    amount -1 carries negative base and quote lots. *)
Example mintIrmaToken_negative_amount :
  let '(r, w') :=
    mintIrmaToken live_env fixture_wallet (JS.of_Z (-1)) signer
      (initial_World 1700000000000) in
  r = Ok true /\
  List.map args_lots
    (List.flat_map (fun ev => match ev with
                              | PlaceOrderIx _ _ _ args => [args]
                              | _ => []
                              end) (trace w'))
  = [mkLots 1 (-1000000) (-1144000)].
Proof. vm_compute. repeat split. Qed.

(** [mintIrmaToken] evaluated: success on the fixture; [false] when no
    endpoint answers, when the wallet refuses to sign, and for an amount
    of zero (the price is then NaN). *)
Example mintIrmaToken_runs :
  let mint env amount sign :=
    mintIrmaToken env fixture_wallet amount sign (initial_World 1700000000000) in
  (fst (mint live_env (JS.of_Z 1000) signer) = Ok true /\
   broadcasts (snd (mint live_env (JS.of_Z 1000) signer)) = 1%nat) /\
  (fst (mint dead_env (JS.of_Z 1000) signer) = Ok false /\
   broadcasts (snd (mint dead_env (JS.of_Z 1000) signer)) = 0%nat) /\
  (fst (mint live_env (JS.of_Z 1000) refusing_signer) = Ok false /\
   broadcasts (snd (mint live_env (JS.of_Z 1000) refusing_signer)) = 0%nat) /\
  (fst (mint live_env (JS.of_Z 0) signer) = Ok false /\
   broadcasts (snd (mint live_env (JS.of_Z 0) signer)) = 0%nat).
Proof. vm_compute. repeat split. Qed.

(** * Further properties of the code *)

(** ** Relations kept by every step *)

Section Evolving.

Variable R : World -> World -> Prop.

Hypothesis R_refl : forall w, R w w.
Hypothesis R_trans : forall w1 w2 w3, R w1 w2 -> R w2 w3 -> R w1 w3.
Hypothesis R_advance : forall d w, 0 <= d -> R w (advance d w).

Lemma evolves_ret {A} (a : A) : evolves R (ret a).
Proof. intros w r w' [= _ <-]. apply R_refl. Qed.

Lemma evolves_throw {A} (e : Exn) : evolves R (@throw A e).
Proof. intros w r w' [= _ <-]. apply R_refl. Qed.

Lemma evolves_lift {A} (x : result A) : evolves R (lift x).
Proof. intros w r w' [= _ <-]. apply R_refl. Qed.

Lemma evolves_look {A} (f : World -> result A) : evolves R (look f).
Proof. intros w r w' [= _ <-]. apply R_refl. Qed.

Lemma evolves_update (f : World -> World) :
  (forall w, R w (f w)) -> evolves R (update f).
Proof. intros Hf w r w' [= _ <-]. apply Hf. Qed.

Lemma evolves_sleep (env : Env) (ms : Z) : evolves R (sleep env ms).
Proof. intros w r w' [= _ <-]. apply R_advance. lia. Qed.

Lemma evolves_call {A} (env : Env) (ev : Event) (f : World -> result A) :
  (forall w, R w (record ev w)) -> evolves R (call env ev f).
Proof.
  intros Hev w r w' [= _ <-].
  apply R_trans with (record ev w); [apply Hev | apply R_advance; lia].
Qed.

(** In a sequence, the continuation only matters for the values the first
    part can return. *)
Lemma evolves_bind_from {A B} (m : M A) (k : A -> M B) :
  evolves R m ->
  (forall a, (exists w w1, m w = (Ok a, w1)) -> evolves R (k a)) ->
  evolves R (bind m k).
Proof.
  intros Hm Hk w r w'. unfold bind.
  destruct (m w) as [[a | e] w1] eqn:E; intros H.
  - apply R_trans with w1; [exact (Hm _ _ _ E) |].
    exact (Hk a (ex_intro _ w (ex_intro _ w1 E)) _ _ _ H).
  - injection H as _ <-. exact (Hm _ _ _ E).
Qed.

Lemma evolves_bind {A B} (m : M A) (k : A -> M B) :
  evolves R m -> (forall a, evolves R (k a)) -> evolves R (bind m k).
Proof. intros Hm Hk. apply evolves_bind_from; [exact Hm | intros a _; apply Hk]. Qed.

Lemma evolves_try_catch {A} (m : M A) (h : Exn -> M A) :
  evolves R m -> (forall e, evolves R (h e)) -> evolves R (try_catch m h).
Proof.
  intros Hm Hh w r w'. unfold try_catch.
  destruct (m w) as [[a | e] w1] eqn:E; intros H.
  - injection H as _ <-. exact (Hm _ _ _ E).
  - apply R_trans with w1; [exact (Hm _ _ _ E) | exact (Hh e _ _ _ H)].
Qed.


Lemma evolves_throttle (env : Env) (l : Limiter) :
  (forall t w, R w (store_lastRequestTime l t w)) -> evolves R (throttle env l).
Proof.
  intros Hl. unfold throttle.
  apply evolves_bind; [apply evolves_look | intros now].
  apply evolves_bind; [apply evolves_look | intros last].
  apply evolves_bind.
  - destruct (_ <? _); [apply evolves_sleep | apply evolves_ret].
  - intros _. apply evolves_bind; [apply evolves_look | intros now'].
    apply evolves_update. intros w. apply Hl.
Qed.

Lemma evolves_probe (env : Env) (candidates : list Endpoint) :
  (forall e w, R w (record (GetSlot e) w)) -> evolves R (probe env candidates).
Proof.
  intros HP. induction candidates as [| e rest IH]; cbn [probe].
  - apply evolves_throw.
  - apply evolves_try_catch; [| intros _; exact IH].
    apply evolves_bind; [apply evolves_call, HP | intros _; apply evolves_ret].
Qed.

End Evolving.






(** ** The connection selector, whatever the endpoints do *)

(** The loop over any list of candidates: the calls it makes are liveness
    probes of the first [k] candidates, in order; it returns a connection
    to the [k]-th, which answered at that moment, or throws after probing
    them all. *)
Lemma probe_prefix (env : Env) (candidates : list Endpoint) (w : World) :
  exists k,
    (k <= List.length candidates)%nat /\
    trace (snd (probe env candidates w))
      = (trace w ++ List.map GetSlot (List.firstn k candidates))%list /\
    match fst (probe env candidates w) with
    | Ok c =>
        exists pre post,
          candidates = (pre ++ rpcEndpoint c :: post)%list /\
          List.length pre = Nat.pred k /\ (1 <= k)%nat
    | Throw e =>
        k = List.length candidates /\ e = ErrorObj "All RPC endpoints failed"
    end.
Proof.
  revert w. induction candidates as [| e rest IH]; intros w.
  - exists 0%nat. cbn. rewrite List.app_nil_r.
    split; [lia | split; [reflexivity | split; reflexivity]].
  - destruct (is_ok (getSlot env w e)) eqn:Hlive.
    + rewrite probe_step_live by exact Hlive. exists 1%nat.
      cbn [fst snd List.length List.firstn List.map].
      split; [lia | split; [reflexivity |]].
      exists [], rest. split; [reflexivity | split; [reflexivity | lia]].
    + rewrite probe_step_dead by exact Hlive.
      destruct (IH (advance (Z.of_N (elapsed env w)) (record (GetSlot e) w)))
        as (k & Hk & Htr & Hres).
      exists (S k). split; [cbn; lia |]. split.
      * rewrite Htr. cbn. rewrite <- List.app_assoc. reflexivity.
      * destruct (fst (probe env rest _)) as [c | err].
        -- destruct Hres as (pre & post & -> & Hlen & Hpos).
           exists (e :: pre), post. cbn. repeat split; lia.
        -- destruct Hres as [-> ->]. split; reflexivity.
Qed.

(** X1: for every behaviour of the endpoints, [getWorkingConnection] makes
    between one and three calls, all of them liveness probes of an initial
    segment of the endpoint list in list order; a returned connection
    targets the last endpoint probed; the call throws only after probing
    all three, and then with "All RPC endpoints failed". *)
Theorem getWorkingConnection_probes_prefix (env : Env) (w : World) :
  exists k,
    (1 <= k <= 3)%nat /\
    trace (snd (getWorkingConnection env w))
      = (trace w ++ List.map GetSlot (List.firstn k endpoints))%list /\
    match fst (getWorkingConnection env w) with
    | Ok c => List.nth_error endpoints (Nat.pred k) = Some (rpcEndpoint c)
    | Throw e => k = 3%nat /\ e = ErrorObj "All RPC endpoints failed"
    end.
Proof.
  unfold getWorkingConnection.
  destruct (probe_prefix env endpoints w) as (k & Hk & Htr & Hres).
  exists k. destruct (fst (probe env endpoints w)) as [c | e].
  - destruct Hres as (pre & post & Hsplit & Hlen & Hpos).
    split; [split; [exact Hpos | exact Hk] | split; [exact Htr |]].
    rewrite Hsplit, <- Hlen. rewrite List.nth_error_app2 by lia.
    rewrite Nat.sub_diag. reflexivity.
  - destruct Hres as [-> ->].
    split; [cbn; lia | split; [exact Htr | split; reflexivity]].
Qed.

(** The same facts in the form other proofs use. *)
Lemma getWorkingConnection_probes_prefix_aux (env : Env) (w : World) :
  exists k,
    (k <= List.length endpoints)%nat /\
    trace (snd (getWorkingConnection env w))
      = (trace w ++ List.map GetSlot (List.firstn k endpoints))%list /\
    match fst (getWorkingConnection env w) with
    | Ok c => (1 <= k)%nat
    | Throw e => k = List.length endpoints /\ e = ErrorObj "All RPC endpoints failed"
    end.
Proof.
  unfold getWorkingConnection.
  destruct (probe_prefix env endpoints w) as (k & Hk & Htr & Hres).
  exists k. split; [exact Hk | split; [exact Htr |]].
  destruct (fst (probe env endpoints w)); [| exact Hres].
  destruct Hres as (_ & _ & _ & _ & H). exact H.
Qed.

Lemma probe_first_or_all (env : Env) (candidates : list Endpoint) (w : World) :
  (forall e w0, is_ok (getSlot env w0 e) = false) ->
  exists e, fst (probe env candidates w) = Throw e.
Proof.
  intros Hdead.
  destruct (probe_all_dead env candidates (fun e w0 _ => Hdead e w0) w) as (w' & E & _).
  rewrite E. eexists. reflexivity.
Qed.

(** ** The calculator: when it returns, and how close the base lots are *)



(** X3: with a positive base lot size, the base lots computed never exceed
    the quantity asked for and fall short of it by less than one lot. *)
Theorem maxBaseLots_brackets_size (m : Market) (o : OrderParams) (l : Lots) :
  0 < baseLotSize m ->
  computeLots m o = Ok l ->
  maxBaseLots l * baseLotSize m <= size o < (maxBaseLots l + 1) * baseLotSize m.
Proof.
  intros Hb H. apply computeLots_inv in H as (_ & _ & _ & -> & _).
  pose proof (Z.div_mod (size o) (baseLotSize m)) as Hdm.
  pose proof (Z.mod_pos_bound (size o) (baseLotSize m) Hb) as Hmod.
  nia.
Qed.

Lemma maxBaseLots_brackets_size_witness :
  maxBaseLots (mkLots 1 0 1142) * 1000 <= 999 < (maxBaseLots (mkLots 1 0 1142) + 1) * 1000.
Proof.
  apply (maxBaseLots_brackets_size (mkMarket 1000 1 "") (mkOrderParams 1040000 999 0)).
  - simpl. lia.
  - vm_compute. reflexivity.
Defined.



(** ** The rate limiter over a run of calls *)





(** X6: a call made when the stored time is not in the future returns
    within the interval plus the timer's lag, and a call made at least
    1000 ms after the stored time returns at once, without waiting. *)
Theorem throttle_waits_no_longer_than_needed (env : Env) (l : Limiter) (w : World) :
  lastRequestTime w l <= clock w ->
  let w' := snd (throttle env l w) in
  clock w <= clock w' <= clock w + 1000 + Z.of_N (timer_lag env w) /\
  (lastRequestTime w l + 1000 <= clock w -> clock w' = clock w) /\
  trace w' = trace w.
Proof.
  intros Hpast w'. subst w'.
  unfold throttle, bind, Date_now, look, update, sleep, ret. cbn [clock].
  unfold RATE_LIMIT_DELAY.
  destruct (Z.ltb_spec (clock w - lastRequestTime w l) 1000) as [Hlt | Hge];
    cbn [snd]; unfold store_lastRequestTime, advance; cbn [clock trace];
    repeat split; lia.
Qed.

Lemma throttle_waits_no_longer_than_needed_witness :
  let w := advance 250 (snd (throttle live_env MintLimiter (initial_World 1700000000000))) in
  let w' := snd (throttle live_env MintLimiter w) in
  clock w = 1700000000250 /\ clock w' = 1700000001003 /\
  clock w <= clock w' <= clock w + 1000 + 3.
Proof.
  intros w w'. split; [reflexivity | split; [reflexivity |]].
  apply (throttle_waits_no_longer_than_needed live_env MintLimiter w).
  vm_compute. discriminate.
Defined.

(** ** [mintIrmaToken]: what is sent, and the amounts it refuses *)

Lemma sent_bind (n k : nat) {A B} (m : M A) (f : A -> M B) :
  evolves (sent_at_most n) m -> (forall a, evolves (sent_at_most k) (f a)) ->
  evolves (sent_at_most (n + k)) (bind m f).
Proof.
  intros Hm Hf w r w'. unfold bind.
  destruct (m w) as [[a | e] w1] eqn:E; intros H.
  - specialize (Hm _ _ _ E). specialize (Hf a _ _ _ H).
    unfold sent_at_most in *. lia.
  - injection H as _ <-. specialize (Hm _ _ _ E). unfold sent_at_most in *. lia.
Qed.

Lemma sent_try_catch (n k : nat) {A} (m : M A) (h : Exn -> M A) :
  evolves (sent_at_most n) m -> (forall e, evolves (sent_at_most k) (h e)) ->
  evolves (sent_at_most (n + k)) (try_catch m h).
Proof.
  intros Hm Hh w r w'. unfold try_catch.
  destruct (m w) as [[a | e] w1] eqn:E; intros H.
  - injection H as _ <-. specialize (Hm _ _ _ E). unfold sent_at_most in *. lia.
  - specialize (Hm _ _ _ E). specialize (Hh e _ _ _ H).
    unfold sent_at_most in *. lia.
Qed.

Lemma quiet_sent {A} (m : M A) :
  quiet is_broadcast m -> evolves (sent_at_most 0) m.
Proof.
  intros Hq w r w' E. unfold sent_at_most, broadcasts. rewrite (Hq _ _ _ E). lia.
Qed.

Lemma createOpenBookV2OrderInstruction_sent (env : Env) (connection : Connection)
    (marketAddress wallet : PublicKey) (signTransaction : SignCallback)
    (orderParams : OrderParams) :
  evolves (sent_at_most 1)
    (createOpenBookV2OrderInstruction env connection marketAddress wallet
       signTransaction orderParams).
Proof.
  intros w r w' E. rewrite createOpenBookV2OrderInstruction_cases in E.
  pose proof (prepareSignedOrder_quiet env connection marketAddress wallet
                signTransaction orderParams w) as Hq.
  destruct (prepareSignedOrder _ _ _ _ _ _ w) as [[raw | e] w1].
  - specialize (Hq _ _ eq_refl). injection E as _ <-.
    unfold sent_at_most, broadcasts.
    change (count is_broadcast (advance ?d ?x)) with (count is_broadcast x).
    rewrite count_record, Hq. cbn [is_broadcast]. lia.
  - specialize (Hq _ _ eq_refl). injection E as _ <-.
    unfold sent_at_most, broadcasts. rewrite Hq. lia.
Qed.

Lemma mintIrmaToken_sent (env : Env) (wallet : PublicKey) (amount : JS.number)
    (signTransaction : SignCallback) :
  evolves (sent_at_most 1) (mintIrmaToken env wallet amount signTransaction).
Proof.
  unfold mintIrmaToken. apply (sent_try_catch 1 0).
  - unfold mintIrmaToken_body.
    do 7 (apply (sent_bind 0 1); [apply quiet_sent; preserves_tac | intros ?]).
    apply (sent_bind 1 0); [apply createOpenBookV2OrderInstruction_sent | intros ?].
    apply quiet_sent. preserves_tac.
  - intros e. apply quiet_sent. preserves_tac.
Qed.

(** X7: one call of [mintIrmaToken] broadcasts at most one transaction,
    whatever the outside answers and whatever the call returns. *)
Theorem mintIrmaToken_sends_at_most_once (env : Env) (wallet : PublicKey)
    (amount : JS.number) (signTransaction : SignCallback) (w : World) :
  let w' := snd (mintIrmaToken env wallet amount signTransaction w) in
  (broadcasts w <= broadcasts w' <= broadcasts w + 1)%nat.
Proof.
  intros w'. subst w'.
  destruct (mintIrmaToken env wallet amount signTransaction w) as [r w'] eqn:E.
  exact (mintIrmaToken_sent env wallet amount signTransaction _ _ _ E).
Qed.




(** ** The balance reader, whatever the outside answers *)

Lemma or_default_truthy (x d : JS.number) :
  truthy d = true -> truthy (JS.or_default x d) = true.
Proof.
  intros Hd. destruct x as [q | | |]; cbn [JS.or_default]; try assumption; try reflexivity.
  destruct (Qeq_bool q 0) eqn:E; [assumption |]. cbn [truthy]. rewrite E. reflexivity.
Qed.

Lemma or_default_not_NaN (x d : JS.number) :
  d <> JS.NaN -> JS.or_default x d <> JS.NaN.
Proof.
  intros Hd. destruct x as [q | | |]; cbn [JS.or_default]; try assumption; try discriminate.
  destruct (Qeq_bool q 0); [assumption | discriminate].
Qed.

(** One round of the loop always pushes a well-formed record for its
    token, exception or not. *)
Lemma fetchOne_returns (env : Env) (connection : Connection) (publicKey : PublicKey)
    (token : Token.t) (w : World) :
  exists b w',
    fetchOne env connection publicKey token w = (Ok b, w') /\ record_for token b.
Proof.
  unfold fetchOne, try_catch.
  match goal with
  | |- context [match ?m w with _ => _ end] => destruct (m w) as [[b | e] w1] eqn:E
  end.
  - exists b, w1. split; [reflexivity |].
    bind_inv E. bind_inv E. bind_inv E.
    destruct a1 as [| account rest]; unfold ret in E; injection E as <- _;
      unfold record_for; cbn; repeat split; try discriminate.
    + apply or_default_truthy. reflexivity.
    + destruct (uiAmount account) as [ui |]; [| discriminate].
      apply or_default_not_NaN. discriminate.
  - eexists _, w1. split; [reflexivity |].
    unfold record_for; cbn; repeat split; discriminate.
Qed.

Lemma fetchEach_returns (env : Env) (connection : Connection) (publicKey : PublicKey)
    (tokens : list Token.t) :
  forall (balances : list TokenBalance.t) (w : World),
  exists bs w',
    fetchEach env connection publicKey tokens balances w = (Ok (balances ++ bs)%list, w') /\
    List.Forall2 record_for tokens bs.
Proof.
  induction tokens as [| token rest IH]; intros balances w; cbn [fetchEach].
  - exists [], w. rewrite List.app_nil_r. split; [reflexivity | constructor].
  - destruct (fetchOne_returns env connection publicKey token w) as (b & w1 & E1 & Hb).
    rewrite (bind_Ok _ _ _ _ _ E1).
    destruct (IH (balances ++ [b])%list w1) as (bs & w2 & E2 & Hbs).
    exists (b :: bs), w2. rewrite E2, <- List.app_assoc. split; [reflexivity |].
    constructor; assumption.
Qed.

(** What [fetchEach] leaves alone, for any observation that neither the
    clock, the limiter nor the per-token lookups change. *)
Lemma reads_preserve {X} (obs : World -> X) (env : Env) (publicKey : PublicKey) :
  (forall d w, obs (advance d w) = obs w) ->
  (forall l t w, obs (store_lastRequestTime l t w) = obs w) ->
  (forall ev w, is_read ev = true -> is_scan publicKey ev = false ->
                obs (record ev w) = obs w) ->
  preserves obs (getWorkingConnection env) /\
  (forall c tokens balances, preserves obs (fetchEach env c publicKey tokens balances)).
Proof.
  intros Ha Hl Hr. split.
  - apply preserves_getWorkingConnection; [exact Ha |]. intros; apply Hr; reflexivity.
  - intros c tokens balances.
    apply fetchEach_preserves; try assumption; intros; apply Hr; reflexivity.
Qed.

(** The first pass: it throws only when no connection could be had, and
    then it has changed nothing of the component; otherwise it stores one
    well-formed record per token and scans once if they are all zero. *)
Lemma fetchTokenBalances_main_outcome (env : Env) (publicKey : PublicKey)
    (onBalanceUpdate : bool) (w : World) :
  exists r w',
    fetchTokenBalances_main env publicKey onBalanceUpdate w = (r, w') /\
    error w' = error w /\ isLoading w' = isLoading w /\
    match r with
    | Ok _ =>
        List.Forall2 record_for TOKENS (tokenBalances w') /\
        scans publicKey w' =
          (scans publicKey w + if all_zero (tokenBalances w') then 1 else 0)%nat
    | Throw _ =>
        tokenBalances w' = tokenBalances w /\ scans publicKey w' = scans publicKey w
    end.
Proof.
  unfold fetchTokenBalances_main.
  assert (P1 : forall X (obs : World -> X),
             (forall d w, obs (advance d w) = obs w) ->
             (forall l t w, obs (store_lastRequestTime l t w) = obs w) ->
             (forall ev w, is_read ev = true -> is_scan publicKey ev = false ->
                           obs (record ev w) = obs w) ->
             preserves obs (getWorkingConnection env) /\
             (forall c tokens balances,
                 preserves obs (fetchEach env c publicKey tokens balances))).
  { intros X obs. apply reads_preserve. }
  assert (Pe := P1 _ error (fun _ _ => eq_refl) (fun _ _ _ => eq_refl)
                  (fun _ _ _ _ => eq_refl)).
  assert (Pl := P1 _ isLoading (fun _ _ => eq_refl) (fun _ _ _ => eq_refl)
                  (fun _ _ _ _ => eq_refl)).
  assert (Pb := P1 _ tokenBalances (fun _ _ => eq_refl) (fun _ _ _ => eq_refl)
                  (fun _ _ _ _ => eq_refl)).
  assert (Ps := P1 _ (count (is_scan publicKey)) (fun _ _ => eq_refl)
                  (fun _ _ _ => eq_refl)
                  (fun ev w0 _ H => count_record_other _ ev w0 H)).
  clear P1.
  destruct (getWorkingConnection env w) as [[c | e] w1] eqn:E1.
  - rewrite (bind_Ok _ _ _ _ _ E1).
    destruct (fetchEach_returns env c publicKey TOKENS [] w1) as (bs & w2 & E2 & Hbs).
    cbn [app] in E2. rewrite (bind_Ok _ _ _ _ _ E2).
    assert (He : error w2 = error w).
    { rewrite (proj2 Pe _ _ _ _ _ _ E2). exact (proj1 Pe _ _ _ E1). }
    assert (Hl : isLoading w2 = isLoading w).
    { rewrite (proj2 Pl _ _ _ _ _ _ E2). exact (proj1 Pl _ _ _ E1). }
    assert (Hs : scans publicKey w2 = scans publicKey w).
    { unfold scans. rewrite (proj2 Ps _ _ _ _ _ _ E2). exact (proj1 Ps _ _ _ E1). }
    fold (all_zero bs).
    assert (Hscan : is_scan publicKey
                      (GetParsedTokenAccountsByOwner (rpcEndpoint c) publicKey
                         (ByProgramId TOKEN_PROGRAM_ID)) = true).
    { cbn [is_scan]. rewrite String.eqb_refl. reflexivity. }
    unfold scans in *.
    destruct (all_zero bs) eqn:Hz.
    + unfold bind, try_catch, call, ret, update, notify.
      destruct (getParsedTokenAccountsByOwner env w2 (rpcEndpoint c) publicKey
                  (ByProgramId TOKEN_PROGRAM_ID));
        destruct onBalanceUpdate; eexists; eexists; (split; [reflexivity |]);
        cbn [error isLoading tokenBalances store_tokenBalances advance record];
        rewrite Hz; (split; [exact He | split; [exact Hl | split; [exact Hbs |]]]);
        try (rewrite count_record_other by reflexivity);
        change (count (is_scan publicKey) (store_tokenBalances ?b ?x))
          with (count (is_scan publicKey) x);
        change (count (is_scan publicKey) (advance ?d ?x))
          with (count (is_scan publicKey) x);
        rewrite count_record, Hscan, Hs; reflexivity.
    + unfold bind, ret, update, notify.
      destruct onBalanceUpdate; eexists; eexists; (split; [reflexivity |]);
        cbn [error isLoading tokenBalances store_tokenBalances advance record];
        rewrite Hz; (split; [exact He | split; [exact Hl | split; [exact Hbs |]]]);
        try (rewrite count_record_other by reflexivity);
        change (count (is_scan publicKey) (store_tokenBalances ?b ?x))
          with (count (is_scan publicKey) x);
        rewrite Hs; lia.
  - rewrite (bind_Throw _ _ _ _ _ E1). exists (Throw e), w1.
    split; [reflexivity |].
    split; [exact (proj1 Pe _ _ _ E1) |].
    split; [exact (proj1 Pl _ _ _ E1) |].
    split; [exact (proj1 Pb _ _ _ E1) |].
    exact (proj1 Ps _ _ _ E1).
Qed.

(** The fallback never throws and always leaves one of its two messages. *)
Lemma fetchTokenBalances_fallback_outcome (env : Env) (publicKey : PublicKey)
    (onBalanceUpdate : bool) (w : World) :
  exists w',
    fetchTokenBalances_fallback env publicKey onBalanceUpdate w = (Ok tt, w') /\
    isLoading w' = isLoading w /\ scans publicKey w' = scans publicKey w /\
    ((error w' = Some sol_only_message /\
      exists lamports, tokenBalances w' = [sol_balance lamports]) \/
     (error w' = Some no_balance_message /\ tokenBalances w' = tokenBalances w)).
Proof.
  unfold fetchTokenBalances_fallback.
  assert (G : forall X (obs : World -> X),
             (forall d w, obs (advance d w) = obs w) ->
             (forall e w, obs (record (GetSlot e) w) = obs w) ->
             preserves obs (getWorkingConnection env)).
  { intros X obs Ha Hr. apply preserves_getWorkingConnection; assumption. }
  assert (Gl := G _ isLoading (fun _ _ => eq_refl) (fun _ _ => eq_refl)).
  assert (Gb := G _ tokenBalances (fun _ _ => eq_refl) (fun _ _ => eq_refl)).
  assert (Gs := G _ (count (is_scan publicKey)) (fun _ _ => eq_refl)
                  (fun e w0 => count_record_other _ _ w0 eq_refl)).
  clear G. unfold scans, try_catch.
  destruct (getWorkingConnection env w) as [[c | e] w1] eqn:E1.
  - rewrite (bind_Ok _ _ _ _ _ E1).
    specialize (Gl _ _ _ E1). specialize (Gb _ _ _ E1). specialize (Gs _ _ _ E1).
    unfold bind, call, update, notify, ret.
    destruct (getBalance env w1 (rpcEndpoint c) publicKey) as [lamports | e].
    + destruct onBalanceUpdate; eexists; (split; [reflexivity |]);
        cbn [error isLoading tokenBalances store_tokenBalances store_error advance record];
        (split; [exact Gl |]);
        try (rewrite count_record_other by reflexivity);
        change (count (is_scan publicKey) (store_error ?m ?x))
          with (count (is_scan publicKey) x);
        change (count (is_scan publicKey) (store_tokenBalances ?b ?x))
          with (count (is_scan publicKey) x);
        change (count (is_scan publicKey) (advance ?d ?x))
          with (count (is_scan publicKey) x);
        rewrite count_record_other by reflexivity;
        (split; [exact Gs |]); left; (split; [reflexivity |]);
        exists lamports; reflexivity.
    + eexists. split; [reflexivity |].
      cbn [error isLoading tokenBalances store_error advance record].
      split; [exact Gl |].
      change (count (is_scan publicKey) (store_error ?m ?x))
        with (count (is_scan publicKey) x).
      change (count (is_scan publicKey) (advance ?d ?x))
        with (count (is_scan publicKey) x).
      rewrite count_record_other by reflexivity.
      split; [exact Gs |]. right. split; [reflexivity | exact Gb].
  - rewrite (bind_Throw _ _ _ _ _ E1).
    specialize (Gl _ _ _ E1). specialize (Gb _ _ _ E1). specialize (Gs _ _ _ E1).
    unfold update. eexists. split; [reflexivity |].
    cbn [error isLoading tokenBalances store_error].
    split; [exact Gl |]. split; [exact Gs |]. right. split; [reflexivity | exact Gb].
Qed.

(** X9: a balance read never throws and always ends with the loading flag
    down, in one of three states: no error and one well-formed record per
    tracked token, in the order of [TOKENS] (declared symbol and mint
    address, truthy decimals, a balance that is not NaN); the SOL-only
    message with the single native-balance record; or the could-not-fetch
    message with the stored balances untouched. *)
Theorem fetchTokenBalances_outcomes (env : Env) (publicKey : PublicKey)
    (onBalanceUpdate : bool) (w : World) :
  exists w',
    fetchTokenBalances env (Some publicKey) onBalanceUpdate w = (Ok tt, w') /\
    isLoading w' = false /\
    ((error w' = None /\ List.Forall2 record_for TOKENS (tokenBalances w')) \/
     (error w' = Some sol_only_message /\
      exists lamports, tokenBalances w' = [sol_balance lamports]) \/
     (error w' = Some no_balance_message /\ tokenBalances w' = tokenBalances w)).
Proof.
  unfold fetchTokenBalances.
  cbv beta iota delta [bind update try_finally try_catch].
  set (w0 := store_error None (store_isLoading true w)).
  destruct (fetchTokenBalances_main_outcome env publicKey onBalanceUpdate w0)
    as (r & w1 & E & He & Hl & Hr).
  rewrite E. destruct r as [[] | e].
  - eexists. split; [reflexivity |]. split; [reflexivity |].
    left. split; [exact He | exact (proj1 Hr)].
  - destruct Hr as [Hb _].
    destruct (fetchTokenBalances_fallback_outcome env publicKey onBalanceUpdate w1)
      as (w2 & E2 & _ & _ & Hcases).
    rewrite E2. eexists. split; [reflexivity |]. split; [reflexivity |].
    right. destruct Hcases as [[Hm Hs] | [Hm Hs]].
    + left. split; assumption.
    + right. split; [exact Hm |]. cbn [tokenBalances store_isLoading].
      rewrite Hs, Hb. reflexivity.
Qed.

Lemma fetchTokenBalances_preserves_count (P : Event -> bool) (env : Env)
    (publicKey : option PublicKey) (onBalanceUpdate : bool) :
  (forall ev, is_read ev = true -> P ev = false) ->
  (forall b, P (BalanceUpdate b) = false) ->
  preserves (count P) (fetchTokenBalances env publicKey onBalanceUpdate).
Proof.
  intros HR HB.
  assert (Hrec : forall ev w, is_read ev = true -> count P (record ev w) = count P w).
  { intros ev w0 Hev. apply count_record_other, HR, Hev. }
  assert (Hgwc : preserves (count P) (getWorkingConnection env)).
  { apply preserves_getWorkingConnection; [reflexivity |].
    intros e w0. apply Hrec. reflexivity. }
  assert (Hnot : forall bs, preserves (count P) (notify onBalanceUpdate bs)).
  { intros bs. unfold notify. destruct onBalanceUpdate; [| apply preserves_ret].
    apply preserves_update. intros w0. apply count_record_other, HB. }
  unfold fetchTokenBalances. destruct publicKey as [pk |]; [| apply preserves_ret].
  apply preserves_bind; [apply preserves_update; reflexivity | intros _].
  apply preserves_bind; [apply preserves_update; reflexivity | intros _].
  apply preserves_try_finally; [| apply preserves_update; reflexivity].
  apply preserves_try_catch.
  - unfold fetchTokenBalances_main.
    apply preserves_bind; [exact Hgwc | intros c].
    apply preserves_bind.
    { apply fetchEach_preserves; try reflexivity; intros; apply Hrec; reflexivity. }
    intros bs. apply preserves_bind.
    { destruct (forallb _ bs); [| apply preserves_ret].
      apply preserves_try_catch; [| intros _; apply preserves_ret].
      apply preserves_bind; [| intros _; apply preserves_ret].
      apply preserves_call; [reflexivity | intros w0; apply Hrec; reflexivity]. }
    intros _. apply preserves_bind; [apply preserves_update; reflexivity | intros _].
    apply Hnot.
  - intros _. unfold fetchTokenBalances_fallback.
    apply preserves_try_catch; [| intros _; apply preserves_update; reflexivity].
    apply preserves_bind; [exact Hgwc | intros c].
    apply preserves_bind.
    { apply preserves_call; [reflexivity | intros w0; apply Hrec; reflexivity]. }
    intros lamports.
    apply preserves_bind; [apply preserves_update; reflexivity | intros _].
    apply preserves_bind; [apply preserves_update; reflexivity | intros _].
    apply Hnot.
Qed.

(** X10: a balance read only reads: it makes no call of the order
    submitter (no market fetch, no instruction, no simulation, no
    signature request) and broadcasts nothing, whether or not a wallet is
    connected and whatever the outside answers. *)
Theorem fetchTokenBalances_only_reads (env : Env) (publicKey : option PublicKey)
    (onBalanceUpdate : bool) (w : World) :
  let w' := snd (fetchTokenBalances env publicKey onBalanceUpdate w) in
  count is_order_step w' = count is_order_step w /\ broadcasts w' = broadcasts w.
Proof.
  intros w'. subst w'.
  destruct (fetchTokenBalances env publicKey onBalanceUpdate w) as [r w'] eqn:E.
  cbn [snd]. split.
  - revert E. apply fetchTokenBalances_preserves_count.
    + intros [] H; try discriminate; reflexivity.
    + reflexivity.
  - unfold broadcasts. revert E. apply fetchTokenBalances_preserves_count.
    + intros [] H; try discriminate; reflexivity.
    + reflexivity.
Qed.

(** X11: the untargeted scan is made at most once per read, and exactly
    when the read ends without error on balances that are all zero. *)
Theorem fetchTokenBalances_scans_iff_all_zero (env : Env) (publicKey : PublicKey)
    (onBalanceUpdate : bool) (w : World) :
  let w' := snd (fetchTokenBalances env (Some publicKey) onBalanceUpdate w) in
  scans publicKey w' =
    (scans publicKey w +
     match error w' with
     | None => if all_zero (tokenBalances w') then 1 else 0
     | Some _ => 0
     end)%nat.
Proof.
  intros w'. subst w'. unfold fetchTokenBalances.
  cbv beta iota delta [bind update try_finally try_catch].
  set (w0 := store_error None (store_isLoading true w)).
  destruct (fetchTokenBalances_main_outcome env publicKey onBalanceUpdate w0)
    as (r & w1 & E & He & Hl & Hr).
  rewrite E. destruct r as [[] | e].
  - cbn [snd error tokenBalances store_isLoading]. rewrite He. cbn [w0 error store_error].
    exact (proj2 Hr).
  - destruct Hr as [_ Hs].
    destruct (fetchTokenBalances_fallback_outcome env publicKey onBalanceUpdate w1)
      as (w2 & E2 & _ & Hs2 & Hcases).
    rewrite E2. cbn [snd error tokenBalances store_isLoading].
    change (scans publicKey (store_isLoading false w2)) with (scans publicKey w2).
    rewrite Hs2, Hs.
    destruct Hcases as [[Hm _] | [Hm _]]; rewrite Hm; apply Nat.add_0_r || (symmetry; apply Nat.add_0_r).
Qed.




(** The three outcomes evaluated: a funded wallet (an IRMA account that
    reports 0 decimals is shown with 6), endpoints that only answer at the
    second round, and no endpoint at all. *)
Example fetchTokenBalances_three_outcomes :
  let read env :=
    snd (fetchTokenBalances env (Some fixture_wallet) true (initial_World 1700000000000)) in
  (error (read funded_env) = None /\
   List.map TokenBalance.balance (tokenBalances (read funded_env))
     = [JS.of_Z 0; JS.Fin (75 # 10)] /\
   List.map TokenBalance.decimals (tokenBalances (read funded_env))
     = [JS.of_Z 6; JS.of_Z 6]) /\
  (error (read late_env) = Some sol_only_message /\
   tokenBalances (read late_env) = [sol_balance (JS.of_Z 2500000000)]) /\
  (error (read dead_env) = Some no_balance_message /\
   tokenBalances (read dead_env) = []).
Proof. vm_compute. repeat split. Qed.

(** X13: with no endpoint answering, a balance read probes the three
    endpoints twice (once for the token pass, once for the native-balance
    fallback), makes no other call and ends with the could-not-fetch
    message. *)
Theorem fetchTokenBalances_offline_probes_twice (env : Env) (publicKey : PublicKey)
    (onBalanceUpdate : bool) (w : World) :
  (forall e w0, is_ok (getSlot env w0 e) = false) ->
  let w' := snd (fetchTokenBalances env (Some publicKey) onBalanceUpdate w) in
  trace w' = (trace w ++ List.map GetSlot (endpoints ++ endpoints))%list /\
  error w' = Some no_balance_message /\
  tokenBalances w' = tokenBalances w.
Proof.
  intros Hdead w'. subst w'.
  assert (D : forall w0,
             exists e w1, getWorkingConnection env w0 = (Throw e, w1) /\
                          trace w1 = (trace w0 ++ List.map GetSlot endpoints)%list /\
                          tokenBalances w1 = tokenBalances w0).
  { intros w0. destruct (getWorkingConnection_probes_prefix_aux env w0) as (k & Hk & Htr & Hres).
    destruct (getWorkingConnection env w0) as [[c | e] w1] eqn:E; cbn [fst snd] in *.
    - exfalso. destruct (probe_first_or_all env endpoints w0 Hdead) as [e He].
      unfold getWorkingConnection in E. rewrite E in He. discriminate.
    - destruct Hres as [-> _]. exists e, w1. split; [reflexivity |].
      split; [exact Htr |].
      assert (P : preserves tokenBalances (getWorkingConnection env)).
      { apply preserves_getWorkingConnection; reflexivity. }
      exact (P _ _ _ E). }
  unfold fetchTokenBalances.
  cbv beta iota delta [bind update try_finally try_catch].
  set (w0 := store_error None (store_isLoading true w)).
  unfold fetchTokenBalances_main.
  destruct (D w0) as (e1 & w1 & E1 & T1 & B1).
  rewrite (bind_Throw _ _ _ _ _ E1).
  unfold fetchTokenBalances_fallback, try_catch.
  destruct (D w1) as (e2 & w2 & E2 & T2 & B2).
  rewrite (bind_Throw _ _ _ _ _ E2).
  unfold update. cbn [snd trace error tokenBalances store_isLoading store_error].
  rewrite T2, T1, B2, B1. cbn [w0 trace tokenBalances store_error store_isLoading].
  rewrite List.map_app, List.app_assoc. repeat split.
Qed.

(** ** The mint form *)

Lemma mintIrmaToken_result (env : Env) (wallet : PublicKey) (amount : JS.number)
    (signTransaction : SignCallback) (w : World) :
  exists b w',
    mintIrmaToken env wallet amount signTransaction w = (Ok b, w') /\
    (b = true -> broadcasts w' = (broadcasts w + 1)%nat) /\
    sent_at_most 1 w w'.
Proof.
  pose proof (mintIrmaToken_sent env wallet amount signTransaction w) as Hs.
  rewrite mintIrmaToken_cases in *.
  destruct (mintIrmaToken_body env wallet amount signTransaction w) as [[b | e] w1] eqn:E.
  - exists b, w1. split; [reflexivity |]. split; [| exact (Hs _ _ eq_refl)].
    intros _. exact (proj2 (mintIrmaToken_body_Ok_inv _ _ _ _ _ _ _ E)).
  - exists false, w1. split; [reflexivity |]. split; [discriminate | exact (Hs _ _ eq_refl)].
Qed.

Lemma positive_amount_price (amount : JS.number) (usdc : JS.number) :
  JSCmp.le amount (JS.of_Z 0) = false ->
  JSCmp.le usdc (JS.of_Z 0) = true ->
  JSCmp.ge usdc (JS.mul amount MintForm.mintRate) = false.
Proof.
  unfold JSCmp.ge, MintForm.mintRate.
  destruct amount as [a | | |]; cbn [JSCmp.le JS.of_Z JS.mul]; intros Ha Hu;
    try discriminate; destruct usdc as [b | | |]; cbn [JSCmp.le] in *;
    try discriminate; try reflexivity.
  destruct (Qle_bool (a * (104 # 100)) b) eqn:E; [exfalso | reflexivity].
  apply Qle_bool_iff in E. apply Qle_bool_iff in Hu.
  assert (Hpos : (0 < a)%Q).
  { apply Qnot_le_lt. intros H. apply Qle_bool_iff in H.
    change (inject_Z 0) with 0%Q in Ha. rewrite H in Ha. discriminate. }
  assert (Hprod : (0 < a * (104 # 100))%Q).
  { apply Qmult_lt_0_compat; [exact Hpos | reflexivity]. }
  apply (Qlt_irrefl 0).
  apply Qlt_le_trans with (a * (104 # 100))%Q; [exact Hprod |].
  apply Qle_trans with b; assumption.
Qed.

(** X14: [handleMint] calls nothing and leaves the form as it is when no
    wallet or no signer is there, when the amount is NaN or not above
    zero, and when the USDC balance the form holds is not above zero (in
    particular when it holds no USDC record at all). *)
Theorem handleMint_refuses (env : Env) (publicKey : option PublicKey)
    (signTransaction : option SignCallback) (st : MintForm.State) (w : World) :
  publicKey = None \/ signTransaction = None \/
  JSCmp.le (MintForm.amount st) (JS.of_Z 0) = true \/
  MintForm.amount st = JS.NaN \/
  JSCmp.le (MintForm.getUSDCBalance st) (JS.of_Z 0) = true ->
  exists toast,
    MintForm.handleMint env publicKey signTransaction st w = (Ok (st, toast), w).
Proof.
  intros H. unfold MintForm.handleMint.
  destruct publicKey as [pk |]; [| exists None; reflexivity].
  destruct signTransaction as [sign |]; [| exists None; reflexivity].
  destruct (JSCmp.le (MintForm.amount st) (JS.of_Z 0)) eqn:Ha; [exists None; reflexivity |].
  assert (Hno : MintForm.hasEnoughBalance st = false).
  { unfold MintForm.hasEnoughBalance, MintForm.totalMintPrice.
    destruct H as [H | [H | [H | [H | H]]]]; try discriminate.
    - rewrite H. cbn [JS.mul]. unfold JSCmp.ge.
      destruct (MintForm.getUSDCBalance st); reflexivity.
    - apply positive_amount_price; assumption. }
  rewrite Hno. exists (Some MintForm.InsufficientBalance). reflexivity.
Qed.

Lemma handleMint_refuses_witness :
  exists toast,
    MintForm.handleMint live_env (Some fixture_wallet) (Some signer)
      (MintForm.handleBalanceUpdate (List.map zero_balance TOKENS) MintForm.initial)
      (initial_World 1700000000000)
    = (Ok (MintForm.handleBalanceUpdate (List.map zero_balance TOKENS) MintForm.initial,
           toast),
       initial_World 1700000000000).
Proof.
  apply (handleMint_refuses live_env (Some fixture_wallet) (Some signer)).
  right. right. right. right. reflexivity.
Defined.

(** X15: [handleMint] never throws and broadcasts at most once.  The
    error toast of its [catch] block is never shown; the success toast is
    shown only after exactly one broadcast, and then the amount is back at
    1000; whenever a toast about the mint is shown the minting flag is
    down; the balances the form holds are not touched. *)
Theorem handleMint_outcome (env : Env) (publicKey : option PublicKey)
    (signTransaction : option SignCallback) (st : MintForm.State) (w : World) :
  exists st' toast w',
    MintForm.handleMint env publicKey signTransaction st w = (Ok (st', toast), w') /\
    toast <> Some MintForm.MintErrored /\
    (toast = Some MintForm.Minted ->
       broadcasts w' = (broadcasts w + 1)%nat /\
       MintForm.amount st' = JS.of_Z 1000) /\
    (toast = Some MintForm.Minted \/ toast = Some MintForm.MintFailed ->
       MintForm.isMinting st' = false) /\
    (broadcasts w <= broadcasts w' <= broadcasts w + 1)%nat /\
    MintForm.formBalances st' = MintForm.formBalances st.
Proof.
  unfold MintForm.handleMint.
  assert (Back : forall toast,
             toast = None \/ toast = Some MintForm.InsufficientBalance ->
             exists st' toast' w',
               (Ok (st, toast), w) = (Ok (st', toast'), w') /\
               toast' <> Some MintForm.MintErrored /\
               (toast' = Some MintForm.Minted ->
                  broadcasts w' = (broadcasts w + 1)%nat /\
                  MintForm.amount st' = JS.of_Z 1000) /\
               (toast' = Some MintForm.Minted \/ toast' = Some MintForm.MintFailed ->
                  MintForm.isMinting st' = false) /\
               (broadcasts w <= broadcasts w' <= broadcasts w + 1)%nat /\
               MintForm.formBalances st' = MintForm.formBalances st).
  { intros toast Ht. exists st, toast, w. split; [reflexivity |].
    split; [destruct Ht as [-> | ->]; discriminate |].
    split; [destruct Ht as [-> | ->]; discriminate |].
    split; [destruct Ht as [-> | ->]; intros [H0 | H0]; discriminate H0 |].
    split; [lia | reflexivity]. }
  destruct publicKey as [pk |]; [| apply Back; left; reflexivity].
  destruct signTransaction as [sign |]; [| apply Back; left; reflexivity].
  destruct (JSCmp.le (MintForm.amount st) (JS.of_Z 0)); [apply Back; left; reflexivity |].
  destruct (MintForm.hasEnoughBalance st); cbn [negb];
    [| apply Back; right; reflexivity].
  clear Back.
  destruct (mintIrmaToken_result env pk (MintForm.amount st) sign w)
    as (b & w' & E & Hb & Hs).
  unfold bind, try_catch. rewrite E. unfold ret.
  destruct b; eexists; eexists; eexists; (split; [reflexivity |]).
  - split; [discriminate |]. split.
    + intros _. split; [apply Hb; reflexivity | reflexivity].
    + split; [intros _; reflexivity |]. split; [exact Hs | reflexivity].
  - split; [discriminate |]. split; [discriminate |].
    split; [intros _; reflexivity |]. split; [exact Hs | reflexivity].
Qed.

(** ** Orders placed through the form *)

Lemma adds_sound_refl (w : World) : adds_sound w w.
Proof. exists []. split; [symmetry; apply List.app_nil_r | constructor]. Qed.

Lemma adds_sound_trans (w1 w2 w3 : World) :
  adds_sound w1 w2 -> adds_sound w2 w3 -> adds_sound w1 w3.
Proof.
  intros (e1 & T1 & F1) (e2 & T2 & F2). exists (e1 ++ e2)%list. split.
  - rewrite T2, T1, List.app_assoc. reflexivity.
  - apply List.Forall_app. split; assumption.
Qed.

Lemma adds_sound_advance (d : Z) (w : World) : 0 <= d -> adds_sound w (advance d w).
Proof.
  intros _. exists []. split; [symmetry; apply List.app_nil_r | constructor].
Qed.

Lemma adds_sound_record (ev : Event) (w : World) :
  sound_order ev -> adds_sound w (record ev w).
Proof. intros H. exists [ev]. split; [reflexivity | repeat constructor; exact H]. Qed.

Ltac sound_side :=
  intros;
  first [ apply adds_sound_record; exact I
        | exists []; split;
          [ cbn [trace store_lastRequestTime]; symmetry; apply List.app_nil_r
          | constructor ] ].

(** One step of a proof that only sound events are recorded. *)
Ltac sound_step :=
  match goal with
  | |- evolves adds_sound (bind _ _) =>
      apply (evolves_bind adds_sound adds_sound_trans); [| intros ?]
  | |- evolves adds_sound (try_catch _ _) =>
      apply (evolves_try_catch adds_sound adds_sound_trans); [| intros ?]
  | |- evolves adds_sound (call _ _ _) =>
      apply (evolves_call adds_sound adds_sound_trans adds_sound_advance); sound_side
  | |- evolves adds_sound (throttle _ _) =>
      apply (evolves_throttle adds_sound adds_sound_refl adds_sound_trans
               adds_sound_advance); sound_side
  | |- evolves adds_sound (getWorkingConnection _) =>
      apply (evolves_probe adds_sound adds_sound_refl adds_sound_trans
               adds_sound_advance); sound_side
  | |- evolves adds_sound (ret _) => apply (evolves_ret adds_sound adds_sound_refl)
  | |- evolves adds_sound (throw _) => apply (evolves_throw adds_sound adds_sound_refl)
  | |- evolves adds_sound (lift _) => apply (evolves_lift adds_sound adds_sound_refl)
  | |- evolves adds_sound (look _) => apply (evolves_look adds_sound adds_sound_refl)
  | |- evolves adds_sound Date_now => apply (evolves_look adds_sound adds_sound_refl)
  | |- evolves adds_sound (console_log _) =>
      apply (evolves_ret adds_sound adds_sound_refl)
  | |- evolves adds_sound (match ?x with _ => _ end) => destruct x
  | |- evolves adds_sound (if ?x then _ else _) => destruct x
  end.

Lemma computeLots_invariant (m : Market) (o : OrderParams) (l : Lots) :
  0 <= price o -> 0 <= size o -> 0 < baseLotSize m -> 0 < quoteLotSize m ->
  computeLots m o = Ok l -> lots_invariant l.
Proof.
  intros Hp Hs Hb Hq H.
  apply computeLots_inv in H as (_ & _ & Hpl & Hmb & Hmq).
  unfold lots_invariant. rewrite Hpl, Hmb, Hmq.
  repeat split; try lia.
  - apply Z.div_pos; lia.
  - apply Z.div_pos; [nia | lia].
Qed.

Lemma prepareSignedOrder_sound (env : Env) (connection : Connection)
    (marketAddress wallet : PublicKey) (signTransaction : SignCallback)
    (orderParams : OrderParams) :
  sane_markets env -> 0 <= price orderParams -> 0 <= size orderParams ->
  evolves adds_sound
    (prepareSignedOrder env connection marketAddress wallet signTransaction orderParams).
Proof.
  intros Hsane Hp Hs. unfold prepareSignedOrder.
  sound_step; [sound_step |].
  apply (evolves_bind_from adds_sound adds_sound_trans); [sound_step |].
  intros market (wa & wb & Ea). unfold call in Ea. injection Ea as Hm _.
  sound_step; [sound_step |]. destruct a0 as [ixs openOrders].
  apply (evolves_bind_from adds_sound adds_sound_trans); [repeat sound_step |].
  intros m (wc & wd & Em).
  destruct market as [m0 |]; [| discriminate Em]. unfold ret in Em. injection Em as -> _.
  apply (evolves_bind_from adds_sound adds_sound_trans); [sound_step |].
  intros lots (we & wf & El). unfold lift in El. injection El as Hl _.
  destruct (Hsane _ _ _ Hm) as [Hb Hq].
  pose proof (computeLots_invariant m orderParams lots Hp Hs Hb Hq Hl) as Hinv.
  sound_step; [sound_step |]. sound_step; [sound_step |]. sound_step; [sound_step |].
  sound_step.
  - apply (evolves_call adds_sound adds_sound_trans adds_sound_advance).
    intros w0. apply adds_sound_record. exact Hinv.
  - repeat sound_step.
Qed.

Lemma createOpenBookV2OrderInstruction_sound (env : Env) (connection : Connection)
    (marketAddress wallet : PublicKey) (signTransaction : SignCallback)
    (orderParams : OrderParams) :
  sane_markets env -> 0 <= price orderParams -> 0 <= size orderParams ->
  evolves adds_sound
    (createOpenBookV2OrderInstruction env connection marketAddress wallet
       signTransaction orderParams).
Proof.
  intros Hsane Hp Hs. unfold createOpenBookV2OrderInstruction.
  sound_step; [| sound_step].
  sound_step; [apply prepareSignedOrder_sound; assumption |].
  repeat sound_step.
Qed.

Lemma price_of_positive_amount (amount : JS.number) (p : BN.t) :
  JSCmp.le amount (JS.of_Z 0) = false ->
  BN.ofNumber (JS.floor (JS.mul (JS.div (JS.mul amount rate) amount) million)) = Ok p ->
  0 <= p /\ exists a, amount = JS.Fin a /\ (0 < a)%Q.
Proof.
  intros Ha H.
  destruct amount as [a | | |]; try discriminate H.
  assert (Hpos : (0 < a)%Q).
  { apply Qnot_le_lt. intros H0. apply Qle_bool_iff in H0.
    cbn [JSCmp.le JS.of_Z] in Ha. change (inject_Z 0) with 0%Q in Ha.
    rewrite H0 in Ha. discriminate. }
  split; [| exists a; split; [reflexivity | exact Hpos]].
  apply ofNumber_floor_inv in H as (q & Hq & -> & _).
  unfold rate, million, JS.of_Z in Hq. cbn [JS.mul] in Hq. unfold JS.div in Hq.
  destruct (Qeq_bool a 0) eqn:Ez.
  { apply Qeq_bool_eq in Ez. rewrite Ez in Hpos. discriminate Hpos. }
  cbn [JS.mul] in Hq. injection Hq as <-.
  rewrite <- (Qfloor_Z 0). apply Qfloor_resp_le.
  apply Qmult_le_0_compat; [| discriminate].
  apply Qle_shift_div_l; [exact Hpos |].
  rewrite Qmult_0_l. apply Qmult_le_0_compat; [apply Qlt_le_weak, Hpos | discriminate].
Qed.

Lemma mintIrmaToken_sound (env : Env) (wallet : PublicKey) (amount : JS.number)
    (signTransaction : SignCallback) :
  sane_markets env -> JSCmp.le amount (JS.of_Z 0) = false ->
  evolves adds_sound (mintIrmaToken env wallet amount signTransaction).
Proof.
  intros Hsane Ha. unfold mintIrmaToken.
  sound_step; [| repeat sound_step].
  unfold mintIrmaToken_body.
  sound_step; [sound_step |]. sound_step; [sound_step |].
  sound_step; [repeat sound_step |].
  apply (evolves_bind_from adds_sound adds_sound_trans); [sound_step |].
  intros p (w1 & w2 & Ep). unfold lift in Ep. injection Ep as Hp _.
  destruct (price_of_positive_amount amount p Ha Hp) as (Hp0 & qa & -> & Hapos).
  apply (evolves_bind_from adds_sound adds_sound_trans); [sound_step |].
  intros s (w3 & w4 & Es). unfold lift in Es. injection Es as Hs _.
  apply size_of_nonnegative_amount in Hs; [| apply Qlt_le_weak, Hapos].
  sound_step; [sound_step |]. sound_step; [sound_step |].
  sound_step.
  - apply createOpenBookV2OrderInstruction_sound; assumption.
  - repeat sound_step.
Qed.

(** X16: on markets with positive lot sizes, every order instruction that
    [handleMint] causes to be requested carries lots that satisfy the
    invariant: price lots at least 1, base and quote lots not negative. *)
Theorem handleMint_places_sound_orders (env : Env) (publicKey : option PublicKey)
    (signTransaction : option SignCallback) (st : MintForm.State) (w : World) :
  sane_markets env ->
  let w' := snd (MintForm.handleMint env publicKey signTransaction st w) in
  exists evs,
    trace w' = (trace w ++ evs)%list /\
    List.Forall lots_invariant (placed_in evs).
Proof.
  intros Hsane w'. subst w'.
  assert (E : evolves adds_sound
                (MintForm.handleMint env publicKey signTransaction st)).
  { unfold MintForm.handleMint.
    destruct publicKey as [pk |]; [| sound_step].
    destruct signTransaction as [sign |]; [| sound_step].
    destruct (JSCmp.le (MintForm.amount st) (JS.of_Z 0)) eqn:Ha; [sound_step |].
    destruct (negb (MintForm.hasEnoughBalance st)); [sound_step |].
    sound_step; [| repeat sound_step].
    sound_step; [| sound_step].
    sound_step; [apply mintIrmaToken_sound; assumption | repeat sound_step]. }
  destruct (MintForm.handleMint env publicKey signTransaction st w) as [r w'] eqn:Er.
  destruct (E _ _ _ Er) as (evs & Htr & Hall). exists evs. split; [exact Htr |].
  clear - Hall. induction Hall as [| ev rest Hev _ IH]; [constructor |].
  unfold placed_in. cbn [List.flat_map].
  destruct ev; try exact IH. cbn [app]. constructor; [exact Hev | exact IH].
Qed.

Lemma live_env_sane : sane_markets live_env.
Proof.
  intros w address m H. cbn in H. injection H as <-. split; reflexivity.
Qed.

Lemma handleMint_places_sound_orders_witness :
  sane_markets live_env /\
  exists evs,
    trace (snd (MintForm.handleMint live_env (Some fixture_wallet) (Some signer)
                  funded_form (initial_World 1700000000000)))
    = (trace (initial_World 1700000000000) ++ evs)%list /\
    List.Forall lots_invariant (placed_in evs).
Proof.
  split; [exact live_env_sane |].
  apply (handleMint_places_sound_orders live_env (Some fixture_wallet) (Some signer)
           funded_form (initial_World 1700000000000)).
  exact live_env_sane.
Defined.

(** The funded form on the fixture market: one order is requested, at
    one price lot for 1000000000 base lots. *)
Example handleMint_runs :
  placed_in
    (trace (snd (MintForm.handleMint live_env (Some fixture_wallet) (Some signer)
                   funded_form (initial_World 1700000000000))))
  = [mkLots 1 1000000000 1144000000] /\
  fst (MintForm.handleMint live_env (Some fixture_wallet) (Some signer)
         funded_form (initial_World 1700000000000))
  = Ok (funded_form, Some MintForm.Minted).
Proof. split; vm_compute; reflexivity. Qed.

Lemma fetchTokenBalances_offline_probes_twice_witness :
  (forall e w0, is_ok (getSlot dead_env w0 e) = false) /\
  trace (snd (fetchTokenBalances dead_env (Some fixture_wallet) false
                (initial_World 1700000000000)))
  = (trace (initial_World 1700000000000)
       ++ List.map GetSlot (endpoints ++ endpoints))%list.
Proof.
  split; [intros e w0; reflexivity |].
  apply (fetchTokenBalances_offline_probes_twice dead_env fixture_wallet false
           (initial_World 1700000000000)).
  intros e w0. reflexivity.
Defined.

(** ** The earlier variant: what becomes of the price *)







(** ** A failure reported after the broadcast *)

(** X19: [false] does not mean that nothing was sent.  When the blockhash
    can no longer be fetched once a transaction has been broadcast,
    [mintIrmaToken] returns false for every input, also in the runs in
    which it has just broadcast the order. *)
Theorem mintIrmaToken_false_after_broadcast (env : Env) (wallet : PublicKey)
    (amount : JS.number) (signTransaction : SignCallback) (w : World) :
  (forall w0 e, (broadcasts w < broadcasts w0)%nat ->
                is_ok (getLatestBlockhash env w0 e) = false) ->
  fst (mintIrmaToken env wallet amount signTransaction w) = Ok false.
Proof.
  intros Hdrop. rewrite mintIrmaToken_cases.
  destruct (mintIrmaToken_body env wallet amount signTransaction w)
    as [[b | e] w'] eqn:H; [| reflexivity].
  exfalso. unfold mintIrmaToken_body in H.
  assert (Q : forall A (m : M A) r w1 w2,
             quiet is_broadcast m -> m w1 = (r, w2) ->
             count is_broadcast w2 = count is_broadcast w1).
  { intros A m r w1 w2 Hm Hr. exact (Hm _ _ _ Hr). }
  bind_inv H. apply Q in E; [| preserves_tac].
  bind_inv H. apply Q in E0; [| preserves_tac].
  bind_inv H. apply Q in E1; [| preserves_tac].
  bind_inv H. apply Q in E2; [| preserves_tac].
  bind_inv H. apply Q in E3; [| preserves_tac].
  bind_inv H. apply Q in E4; [| preserves_tac].
  bind_inv H. apply Q in E5; [| preserves_tac].
  bind_inv H.
  destruct (createOpenBookV2OrderInstruction_broadcasts env a0 MARKET_ADDRESS wallet
              signTransaction (mkOrderParams a2 a3 a5) w6)
    as (res & w7' & Ec & _ & Hok).
  rewrite Ec in E6. injection E6 as <- <-.
  bind_inv H.
  destruct (success res) eqn:Hs; cbn [negb] in E6; [| discriminate E6].
  injection E6 as _ <-.
  destruct (Hok eq_refl) as [Hb _].
  bind_inv H. unfold call in E6. injection E6 as Hans _.
  specialize (Hdrop w7' (rpcEndpoint a0)).
  rewrite Hans in Hdrop. cbn [is_ok] in Hdrop.
  assert (Hlt : (broadcasts w < broadcasts w7')%nat) by (unfold broadcasts in *; lia).
  specialize (Hdrop Hlt). discriminate Hdrop.
Qed.

Lemma mintIrmaToken_false_after_broadcast_witness :
  (forall w0 e, (broadcasts (initial_World 1700000000000) < broadcasts w0)%nat ->
                is_ok (getLatestBlockhash dropping_env w0 e) = false) /\
  fst (mintIrmaToken dropping_env fixture_wallet (JS.of_Z 1000) signer
         (initial_World 1700000000000)) = Ok false /\
  broadcasts (snd (mintIrmaToken dropping_env fixture_wallet (JS.of_Z 1000) signer
                     (initial_World 1700000000000))) = 1%nat.
Proof.
  assert (H : forall w0 e,
             (broadcasts (initial_World 1700000000000) < broadcasts w0)%nat ->
             is_ok (getLatestBlockhash dropping_env w0 e) = false).
  { intros w0 e Hlt. cbn [getLatestBlockhash dropping_env].
    destruct (Nat.leb_spec 1 (broadcasts w0)) as [_ | Hn]; [reflexivity |].
    change (broadcasts (initial_World 1700000000000)) with 0%nat in Hlt. lia. }
  split; [exact H |]. split.
  - apply (mintIrmaToken_false_after_broadcast dropping_env fixture_wallet
             (JS.of_Z 1000) signer (initial_World 1700000000000)).
    exact H.
  - vm_compute. reflexivity.
Defined.
